(** * TI AM3 DPLL clock driver (drivers/clk/ti/clk-am3-dpll.c)

    A shallow embedding of the three clock operations of the driver,
    [clk_ti_am3_dpll_round_rate], [clk_ti_am3_dpll_set_rate] and
    [clk_ti_am3_dpll_get_rate], and the properties of the rate search, of the
    bypass / program / lock sequence and of the rate decoder.

    C integers are modelled as [Z] with the wrap-around written out.  The
    width of [unsigned long] is not fixed by the source file: it is 32 bits on
    the ARMv7 SoCs the driver is written for and 64 bits on an LP64 target, so
    every definition takes it as the parameter [ulong_bits]. *)

From Stdlib Require Import ZArith List Bool Lia String Btauto.
From coqutil Require Import Z.bitblast.
Import ListNotations.
Local Open Scope Z_scope.

(** ** Machine integers *)

Module CInt.

(** Conversion to an unsigned type of [w] bits. *)
Definition to_unsigned (w x : Z) : Z := x mod 2 ^ w.

(** Conversion to a signed (two's complement) type of [w] bits. *)
Definition to_signed (w x : Z) : Z := (x + 2 ^ (w - 1)) mod 2 ^ w - 2 ^ (w - 1).

Definition u8 (x : Z) : Z := to_unsigned 8 x.
Definition u16 (x : Z) : Z := to_unsigned 16 x.
Definition u32 (x : Z) : Z := to_unsigned 32 x.
Definition u64 (x : Z) : Z := to_unsigned 64 x.
Definition int (x : Z) : Z := to_signed 32 x.

Definition INT_MAX : Z := 2 ^ 31 - 1.

(** errno.h and linux/err.h *)
Definition EFAULT : Z := 14.
Definition MAX_ERRNO : Z := 4095.

End CInt.
Import CInt.

(** ** Constants of asm/arch/clock.h

    The header that defines the register layout is not part of the sources;
    its constants are taken as parameters, collected in a record. *)

Record clock_h : Type := {
  CM_CLKMODE_DPLL_EN_MASK : Z;
  CM_CLKMODE_DPLL_EN_SHIFT : Z;
  CM_CLKMODE_DPLL_DPLL_EN_MASK : Z;
  DPLL_EN_MN_BYPASS : Z;
  DPLL_EN_LOW_POWER_BYPASS : Z;
  DPLL_EN_FAST_RELOCK_BYPASS : Z;
  DPLL_EN_LOCK : Z;
  ST_DPLL_CLK_MASK : Z;
  CM_CLKSEL_DPLL_M_MASK : Z;
  CM_CLKSEL_DPLL_M_SHIFT : Z;
  CM_CLKSEL_DPLL_N_MASK : Z;
  CM_CLKSEL_DPLL_N_SHIFT : Z;
  LDELAY : Z
}.

(** The layout the driver relies on: an 11 bit multiplier field and a 7 bit
    divider field (multipliers up to 2047, dividers up to 128, stored minus
    one) that do not overlap and lie inside the 32 bit select register. *)
Record clock_h_ok (h : clock_h) : Prop := {
  m_shift_range : 0 <= CM_CLKSEL_DPLL_M_SHIFT h /\ CM_CLKSEL_DPLL_M_SHIFT h + 11 <= 31;
  n_shift_range : 0 <= CM_CLKSEL_DPLL_N_SHIFT h /\ CM_CLKSEL_DPLL_N_SHIFT h + 7 <= 31;
  m_mask_field : CM_CLKSEL_DPLL_M_MASK h = Z.shiftl (Z.ones 11) (CM_CLKSEL_DPLL_M_SHIFT h);
  n_mask_field : CM_CLKSEL_DPLL_N_MASK h = Z.shiftl (Z.ones 7) (CM_CLKSEL_DPLL_N_SHIFT h);
  fields_disjoint :
    CM_CLKSEL_DPLL_M_SHIFT h + 11 <= CM_CLKSEL_DPLL_N_SHIFT h \/
    CM_CLKSEL_DPLL_N_SHIFT h + 7 <= CM_CLKSEL_DPLL_M_SHIFT h
}.

(** The values the AM33xx header gives these constants. *)
Definition am33xx_clock_h : clock_h := {|
  CM_CLKMODE_DPLL_EN_MASK := 7;
  CM_CLKMODE_DPLL_EN_SHIFT := 0;
  CM_CLKMODE_DPLL_DPLL_EN_MASK := 7;
  DPLL_EN_MN_BYPASS := 4;
  DPLL_EN_LOW_POWER_BYPASS := 5;
  DPLL_EN_FAST_RELOCK_BYPASS := 6;
  DPLL_EN_LOCK := 7;
  ST_DPLL_CLK_MASK := 1;
  CM_CLKSEL_DPLL_M_MASK := 524032;
  CM_CLKSEL_DPLL_M_SHIFT := 8;
  CM_CLKSEL_DPLL_N_MASK := 127;
  CM_CLKSEL_DPLL_N_SHIFT := 0;
  LDELAY := 1000000
|}.

(** ** Driver data *)

(** [struct clk_ti_am3_dpll_priv]; the two parent clocks [clk_ref] and
    [clk_bypass] are handles whose rate is asked from the clock framework
    (see [clk_handle] below). *)
Record clk_ti_am3_dpll_priv : Type := {
  clkmode_reg : Z;
  idlest_reg : Z;
  clksel_reg : Z;
  last_rounded_mult : Z;   (* u16 *)
  last_rounded_div : Z;    (* u8 *)
  max_rate : Z             (* ulong *)
}.

Definition set_last_rounded (p : clk_ti_am3_dpll_priv) (mult div : Z)
  : clk_ti_am3_dpll_priv :=
  {| clkmode_reg := clkmode_reg p;
     idlest_reg := idlest_reg p;
     clksel_reg := clksel_reg p;
     last_rounded_mult := mult;
     last_rounded_div := div;
     max_rate := max_rate p |}.

(** ** The rate search of [clk_ti_am3_dpll_round_rate] *)

(** The locals the two loops update: [err_min], [ret], [mult], [div]. *)
Record best : Type := {
  err_min : Z;   (* int *)
  ret : Z;       (* ulong *)
  mult : Z;      (* int *)
  div : Z        (* int *)
}.

(** The values a counting [for] loop visits: [n] consecutive integers from
    [from] on. *)
Fixpoint upto (n : nat) (from : Z) : list Z :=
  match n with
  | O => []
  | S n' => from :: upto n' (from + 1)
  end.

Section Search.

Variable ulong_bits : Z.

Definition ulong (x : Z) : Z := to_unsigned ulong_bits x.
Definition long (x : Z) : Z := to_signed ulong_bits x.

(** The [abs] macro of linux/kernel.h at an argument of the size of [long]:
    [long __x = (x); ret = (__x < 0) ? -__x : __x;].  Negating the least
    [long] wraps to itself. *)
Definition abs (x : Z) : Z :=
  let __x := long x in
  long (if __x <? 0 then - __x else __x).

(** [r = (ref_rate * m) / d] *)
Definition candidate (ref_rate m d : Z) : Z := ulong (ref_rate * m) / d.

(** [err = abs(r - rate)], an [int] *)
Definition candidate_err (r rate : Z) : Z := int (abs (ulong (r - rate))).

(** [ret = -EFAULT] *)
Definition no_solution : Z := ulong (- EFAULT).

(** The state before the loops: [mult = INT_MAX, div = INT_MAX],
    [ret = -EFAULT], [err_min = rate]. *)
Definition best_init (rate : Z) : best :=
  {| err_min := int rate; ret := no_solution; mult := INT_MAX; div := INT_MAX |}.

(** The inner loop, [for (m = 2; m <= 2047; m++)], over the multipliers
    still to visit; both [break]s leave it. *)
Fixpoint scan_m (ref_rate rate d : Z) (ms : list Z) (b : best) : best :=
  match ms with
  | [] => b
  | m :: ms' =>
      let r := candidate ref_rate m d in
      let err := candidate_err r rate in
      if err <? err_min b then
        let b' := {| err_min := err; ret := r; mult := m; div := d |} in
        if err =? 0 then b' else scan_m ref_rate rate d ms' b'
      else if r >? rate then b
      else scan_m ref_rate rate d ms' b
  end.

(** [2, 3, ..., 2047] *)
Definition mults : list Z := upto 2046 2.

(** [1, 2, ..., 128] *)
Definition divs : list Z := upto 128 1.

(** The outer loop, [for (d = 1; err_min && d <= 128; d++)], over the
    dividers still to visit. *)
Fixpoint scan_d (ref_rate rate : Z) (ds : list Z) (b : best) : best :=
  match ds with
  | [] => b
  | d :: ds' =>
      if err_min b =? 0 then b
      else scan_d ref_rate rate ds' (scan_m ref_rate rate d mults b)
  end.

(** The two loops from their initial state. *)
Definition search (ref_rate rate : Z) : best :=
  scan_d ref_rate rate divs (best_init rate).

(** [if (priv->max_rate && rate > priv->max_rate) rate = priv->max_rate;] *)
Definition clamp_rate (p : clk_ti_am3_dpll_priv) (rate : Z) : Z :=
  if negb (max_rate p =? 0) && (rate >? max_rate p) then max_rate p else rate.

(** [IS_ERR_VALUE(x)]: [x >= (unsigned long)-MAX_ERRNO] *)
Definition IS_ERR_VALUE (x : Z) : bool := ulong (- MAX_ERRNO) <=? x.

End Search.

(** ** The platform the driver runs on

    The register accessors, the polling helper, the parent clocks and
    [hang] are not part of the sources.  Calls to them are recorded in a log
    (most recent first) and what they answer is given by a [platform], which
    may answer from everything that happened before. *)

Inductive clk_handle : Type := clk_ref | clk_bypass.

Inductive event : Type :=
| Clk_get_rate (c : clk_handle) (rate : Z)
| Readl (addr value : Z)
| Writel (value addr : Z)
| Clrsetbits_le32 (addr clear set : Z)
| Wait_on_value (mask value addr bound : Z) (found : bool)
| Dev_warn (msg : string) (args : list Z)
| Dev_err (msg : string)
| Dev_dbg (msg : string) (args : list Z)
| Hang.

(** The events that read, write or poll a register. *)
Definition touches_register (e : event) : bool :=
  match e with
  | Readl _ _ | Writel _ _ | Clrsetbits_le32 _ _ _ | Wait_on_value _ _ _ _ _ => true
  | _ => false
  end.

Record platform : Type := {
  parent_rate : list event -> clk_handle -> Z;
  register_value : list event -> Z -> Z;
  poll_result : list event -> Z -> Z -> Z -> Z -> bool
}.

Record state : Type := {
  priv : clk_ti_am3_dpll_priv;
  log : list event
}.

(** How a call ends: it returns, it never returns because [hang] was
    called, or it divides by zero. *)
Inductive outcome (A : Type) : Type :=
| Returned (a : A)
| Hung
| Div_by_zero.
Arguments Returned {A} a.
Arguments Hung {A}.
Arguments Div_by_zero {A}.

Definition M (A : Type) : Type := state -> outcome A * state.

Definition pure {A} (a : A) : M A := fun s => (Returned a, s).

Definition bind {A B} (m : M A) (f : A -> M B) : M B :=
  fun s =>
    match m s with
    | (Returned a, s') => f a s'
    | (Hung, s') => (Hung, s')
    | (Div_by_zero, s') => (Div_by_zero, s')
    end.

Notation "x <- m ;; k" := (bind m (fun x => k))
  (at level 61, m at next level, right associativity).
Notation "m ;;; k" := (bind m (fun _ => k))
  (at level 61, right associativity).

Definition record (e : event) (s : state) : state :=
  {| priv := priv s; log := e :: log s |}.

Definition dev_get_priv : M clk_ti_am3_dpll_priv := fun s => (Returned (priv s), s).

Definition dev_warn (msg : string) (args : list Z) : M unit :=
  fun s => (Returned tt, record (Dev_warn msg args) s).
Definition dev_err (msg : string) : M unit :=
  fun s => (Returned tt, record (Dev_err msg) s).
Definition dev_dbg (msg : string) (args : list Z) : M unit :=
  fun s => (Returned tt, record (Dev_dbg msg args) s).

(** [hang()] does not return. *)
Definition hang {A} : M A := fun s => (Hung, record Hang s).

(** [do_div(n, base)], the quotient left in [n]. *)
Definition do_div (n base : Z) : M Z :=
  fun s => if base =? 0 then (Div_by_zero, s) else (Returned (n / base), s).

Section Driver.

Variable ulong_bits : Z.
Variable h : clock_h.
Variable plat : platform.

Definition clk_get_rate (c : clk_handle) : M Z :=
  fun s =>
    let rate := ulong ulong_bits (parent_rate plat (log s) c) in
    (Returned rate, record (Clk_get_rate c rate) s).

Definition readl (addr : Z) : M Z :=
  fun s =>
    let v := u32 (register_value plat (log s) addr) in
    (Returned v, record (Readl addr v) s).

Definition writel (v addr : Z) : M unit :=
  fun s => (Returned tt, record (Writel v addr) s).

Definition clrsetbits_le32 (addr clear set : Z) : M unit :=
  fun s => (Returned tt, record (Clrsetbits_le32 addr clear set) s).

Definition wait_on_value (mask value addr bound : Z) : M bool :=
  fun s =>
    let found := poll_result plat (log s) mask value addr bound in
    (Returned found, record (Wait_on_value mask value addr bound found) s).

(** [priv->last_rounded_mult = mult; priv->last_rounded_div = div;] with
    the conversions to [u16] and [u8]. *)
Definition store_last_rounded (mult div : Z) : M unit :=
  fun s =>
    (Returned tt,
     {| priv := set_last_rounded (priv s) (u16 mult) (u8 div); log := log s |}).

Definition clk_ti_am3_dpll_round_rate (rate : Z) : M Z :=
  p <- dev_get_priv ;;
  rate <- (if negb (max_rate p =? 0) && (rate >? max_rate p)
           then dev_warn "%ld is to high a rate, lowered to %ld" [rate; max_rate p] ;;;
                pure (max_rate p)
           else pure rate) ;;
  ref_rate <- clk_get_rate clk_ref ;;
  let b := search ulong_bits ref_rate rate in
  store_last_rounded (mult b) (div b) ;;;
  dev_dbg "rate=%ld, best_rate=%ld, mult=%d, div=%d" [rate; ret b; mult b; div b] ;;;
  pure (ret b).

(** The value [clk_ti_am3_dpll_set_rate] writes to the select register,
    from the value [v] read from it: [v &= ~M_MASK; v |= (mult << M_SHIFT)
    & M_MASK; v &= ~N_MASK; v |= ((div - 1) << N_SHIFT) & N_MASK]. *)
Definition set_m_n (v mult div : Z) : Z :=
  let v := u32 (Z.land v (Z.lnot (CM_CLKSEL_DPLL_M_MASK h))) in
  let v := u32 (Z.lor v (Z.land (Z.shiftl mult (CM_CLKSEL_DPLL_M_SHIFT h))
                                (CM_CLKSEL_DPLL_M_MASK h))) in
  let v := u32 (Z.land v (Z.lnot (CM_CLKSEL_DPLL_N_MASK h))) in
  u32 (Z.lor v (Z.land (Z.shiftl (div - 1) (CM_CLKSEL_DPLL_N_SHIFT h))
                       (CM_CLKSEL_DPLL_N_MASK h))).

Definition clk_ti_am3_dpll_set_rate (rate : Z) : M Z :=
  round_rate <- clk_ti_am3_dpll_round_rate rate ;;
  if IS_ERR_VALUE ulong_bits round_rate then pure round_rate
  else
    p <- dev_get_priv ;;
    v <- readl (clksel_reg p) ;;
    (* enter bypass mode *)
    clrsetbits_le32 (clkmode_reg p) (CM_CLKMODE_DPLL_DPLL_EN_MASK h)
      (Z.shiftl (DPLL_EN_MN_BYPASS h) (CM_CLKMODE_DPLL_EN_SHIFT h)) ;;;
    (* wait for bypass mode *)
    bypassed <- wait_on_value (ST_DPLL_CLK_MASK h) 0 (idlest_reg p) (LDELAY h) ;;
    (if bypassed then pure tt else dev_err "failed bypassing dpll") ;;;
    (* set M & N *)
    writel (set_m_n v (last_rounded_mult p) (last_rounded_div p)) (clksel_reg p) ;;;
    (* lock dpll *)
    clrsetbits_le32 (clkmode_reg p) (CM_CLKMODE_DPLL_DPLL_EN_MASK h)
      (Z.shiftl (DPLL_EN_LOCK h) (CM_CLKMODE_DPLL_EN_SHIFT h)) ;;;
    (* wait till the dpll locks *)
    locked <- wait_on_value (ST_DPLL_CLK_MASK h) (ST_DPLL_CLK_MASK h)
                (idlest_reg p) (LDELAY h) ;;
    (if locked then pure tt else dev_err "failed locking dpll" ;;; hang) ;;;
    pure round_rate.

(** The enable field of a mode-control value: [v &= EN_MASK; v >>= EN_SHIFT]. *)
Definition dpll_en (v : Z) : Z :=
  Z.shiftr (u32 (Z.land v (CM_CLKMODE_DPLL_EN_MASK h))) (CM_CLKMODE_DPLL_EN_SHIFT h).

(** The [case] labels of the [switch]. *)
Definition is_bypass (en : Z) : bool :=
  (en =? DPLL_EN_MN_BYPASS h) || (en =? DPLL_EN_LOW_POWER_BYPASS h)
  || (en =? DPLL_EN_FAST_RELOCK_BYPASS h).

(** The fields of a select value: [m = v & M_MASK; m >>= M_SHIFT] and the
    same for [n]. *)
Definition clksel_m (v : Z) : Z :=
  Z.shiftr (u32 (Z.land v (CM_CLKSEL_DPLL_M_MASK h))) (CM_CLKSEL_DPLL_M_SHIFT h).
Definition clksel_n (v : Z) : Z :=
  Z.shiftr (u32 (Z.land v (CM_CLKSEL_DPLL_N_MASK h))) (CM_CLKSEL_DPLL_N_SHIFT h).

(** The second argument of [do_div], [n + 1] in [u32]. *)
Definition divisor (v : Z) : Z := u32 (clksel_n v + 1).

Definition clk_ti_am3_dpll_get_rate : M Z :=
  p <- dev_get_priv ;;
  (* Return bypass rate if DPLL is bypassed *)
  v <- readl (clkmode_reg p) ;;
  if is_bypass (dpll_en v) then
    rate <- clk_get_rate clk_bypass ;;
    let rate := u64 rate in
    dev_dbg "rate=%lld" [rate] ;;;
    pure (ulong ulong_bits rate)
  else
    v <- readl (clksel_reg p) ;;
    let m := clksel_m v in
    ref_rate <- clk_get_rate clk_ref ;;
    let rate := u64 (ulong ulong_bits (ref_rate * m)) in
    rate <- do_div rate (divisor v) ;;
    dev_dbg "rate=%lld" [rate] ;;;
    pure (ulong ulong_bits rate).

End Driver.

(** Running an operation from a private data block and an empty log. *)
Definition run {A} (m : M A) (p : clk_ti_am3_dpll_priv) : outcome A * state :=
  m {| priv := p; log := [] |}.

(** A platform that answers the same whatever happened before. *)
Definition steady_platform (ref_rate bypass_rate : Z) (reg : Z -> Z)
    (bypass_poll lock_poll : bool) : platform :=
  {| parent_rate := fun _ c => match c with clk_ref => ref_rate | clk_bypass => bypass_rate end;
     register_value := fun _ addr => reg addr;
     poll_result := fun _ _ value _ _ => if value =? 0 then bypass_poll else lock_poll |}.

Definition am33xx_priv (ceiling : Z) : clk_ti_am3_dpll_priv :=
  {| clkmode_reg := 1155598472; idlest_reg := 1155598372; clksel_reg := 1155598380;
     last_rounded_mult := 0; last_rounded_div := 0; max_rate := ceiling |}.

(** A platform whose DPLL is locked, with the given reference rate and
    select value. *)
Definition locked_platform (ref_rate sel : Z) : platform :=
  steady_platform ref_rate ref_rate
    (fun addr => if addr =? clkmode_reg (am33xx_priv 0) then 7 else sel) true true.

(** ** What the search is compared with

    The rate of a pair and its distance to the target in exact arithmetic,
    the order in which the loops visit the pairs, and the invariant of the
    loops. *)

Definition exact_rate (ref_rate m d : Z) : Z := ref_rate * m / d.

Definition exact_err (ref_rate rate m d : Z) : Z :=
  Z.abs (exact_rate ref_rate m d - rate).

Definition in_range (m d : Z) : Prop := 2 <= m <= 2047 /\ 1 <= d <= 128.

(** [(d, m)] is visited before [(d', m')]. *)
Definition visited_before (d m d' m' : Z) : Prop := d < d' \/ (d = d' /\ m < m').

(** The locals hold a pair of the search space, its rate and its error. *)
Definition chosen (ref_rate rate : Z) (b : best) : Prop :=
  in_range (mult b) (div b) /\
  ret b = exact_rate ref_rate (mult b) (div b) /\
  err_min b = exact_err ref_rate rate (mult b) (div b) /\
  err_min b < rate.

Definition wf (W ref_rate rate : Z) (b : best) : Prop :=
  b = best_init W rate \/ chosen ref_rate rate b.

(** No pair of the search space is nearer to the target than [b], and [b]
    is the first of the pairs that are as near. *)
Definition optimal (ref_rate rate : Z) (b : best) : Prop :=
  forall m d, in_range m d ->
    err_min b <= exact_err ref_rate rate m d /\
    (exact_err ref_rate rate m d = err_min b -> chosen ref_rate rate b ->
     div b < d \/ (div b = d /\ mult b <= m)).

(** The same of the pairs visited before [(d0, m0)] only. *)
Definition inv (W ref_rate rate : Z) (b : best) (d0 m0 : Z) : Prop :=
  wf W ref_rate rate b /\
  (chosen ref_rate rate b -> visited_before (div b) (mult b) d0 m0) /\
  forall m d, in_range m d -> visited_before d m d0 m0 ->
    err_min b <= exact_err ref_rate rate m d /\
    (exact_err ref_rate rate m d = err_min b -> chosen ref_rate rate b ->
     div b < d \/ (div b = d /\ mult b <= m)).

(** What holds of the multipliers the inner loop reaches: the one before
    did not end the loop. *)
Definition reached (ref_rate rate m d : Z) : Prop :=
  m = 2 \/ exact_rate ref_rate (m - 1) d < 2 * rate.

(** After the row of [d]: all pairs up to the end of the row are accounted
    for, or an exact match has ended the search. *)
Definition row_done (W ref_rate rate : Z) (b : best) (d : Z) : Prop :=
  inv W ref_rate rate b (d + 1) 2 \/
  (err_min b = 0 /\ wf W ref_rate rate b /\ optimal ref_rate rate b).

(** The locals hold a pair the loops accepted, with the rate and the error
    the machine arithmetic gave it. *)
Definition accepted (W ref_rate rate : Z) (b : best) : Prop :=
  in_range (mult b) (div b) /\
  ret b = candidate W ref_rate (mult b) (div b) /\
  err_min b = candidate_err W (ret b) rate.

(** The locals the search can end with. *)
Definition untouched_or_accepted (W ref_rate rate : Z) (b : best) : Prop :=
  b = best_init W rate \/ accepted W ref_rate rate b.

(** The locals hold an accepted pair whose error is below the error the
    loops start from: a pair is accepted by [err < err_min] only. *)
Definition improved (W ref_rate rate : Z) (b : best) : Prop :=
  accepted W ref_rate rate b /\ err_min b < int rate.

(** What [clk_ti_am3_dpll_round_rate] leaves behind when its loops run on
    the target [rate] with the reference rate [ref_rate], from the private
    data [p] and the log [l]. *)
Definition searched (W ref_rate rate : Z) (p : clk_ti_am3_dpll_priv) (l : list event)
  : outcome Z * state :=
  let b := search W ref_rate rate in
  (Returned (ret b),
   {| priv := set_last_rounded p (u16 (mult b)) (u8 (div b));
      log := Dev_dbg "rate=%ld, best_rate=%ld, mult=%d, div=%d" [rate; ret b; mult b; div b]
             :: Clk_get_rate clk_ref ref_rate :: l |}).

(** The warning of the clamp. *)
Definition too_high (rate ceiling : Z) : event :=
  Dev_warn "%ld is to high a rate, lowered to %ld" [rate; ceiling].

(** The events of [clk_ti_am3_dpll_set_rate] after the search, most recent
    first, from the select value [v] read and the results of the two polls. *)
Definition programming_events (h : clock_h) (p : clk_ti_am3_dpll_priv)
    (v : Z) (bypassed locked : bool) : list event :=
  (if locked then [] else [Hang; Dev_err "failed locking dpll"]) ++
  [ Wait_on_value (ST_DPLL_CLK_MASK h) (ST_DPLL_CLK_MASK h) (idlest_reg p) (LDELAY h) locked;
    Clrsetbits_le32 (clkmode_reg p) (CM_CLKMODE_DPLL_DPLL_EN_MASK h)
      (Z.shiftl (DPLL_EN_LOCK h) (CM_CLKMODE_DPLL_EN_SHIFT h));
    Writel (set_m_n h v (last_rounded_mult p) (last_rounded_div p)) (clksel_reg p) ] ++
  (if bypassed then [] else [Dev_err "failed bypassing dpll"]) ++
  [ Wait_on_value (ST_DPLL_CLK_MASK h) 0 (idlest_reg p) (LDELAY h) bypassed;
    Clrsetbits_le32 (clkmode_reg p) (CM_CLKMODE_DPLL_DPLL_EN_MASK h)
      (Z.shiftl (DPLL_EN_MN_BYPASS h) (CM_CLKMODE_DPLL_EN_SHIFT h));
    Readl (clksel_reg p) v ].

(** ** Binding the driver to a device

    [clk_ti_am3_dpll_of_to_plat], [clk_ti_am3_dpll_probe] and
    [clk_ti_am3_dpll_remove], and the data of the match table. *)

(** errno.h *)
Definition EINVAL : Z := 22.

(** [struct clk_ti_am3_dpll_drv_data] *)
Record clk_ti_am3_dpll_drv_data : Type := {
  data_max_rate : Z   (* ulong max_rate *)
}.

Definition dpll_no_gate_data : clk_ti_am3_dpll_drv_data :=
  {| data_max_rate := 1000000000 |}.

Definition dpll_no_gate_j_type_data : clk_ti_am3_dpll_drv_data :=
  {| data_max_rate := 2000000000 |}.

Definition dpll_core_data : clk_ti_am3_dpll_drv_data :=
  {| data_max_rate := 1000000000 |}.

(** [clk_ti_am3_dpll_of_match], without its empty last entry. *)
Definition clk_ti_am3_dpll_of_match : list (string * clk_ti_am3_dpll_drv_data) :=
  [ ("ti,am3-dpll-core-clock"%string, dpll_core_data);
    ("ti,am3-dpll-no-gate-clock"%string, dpll_no_gate_data);
    ("ti,am3-dpll-no-gate-j-type-clock"%string, dpll_no_gate_j_type_data) ].

Definition set_max_rate (p : clk_ti_am3_dpll_priv) (v : Z) : clk_ti_am3_dpll_priv :=
  {| clkmode_reg := clkmode_reg p; idlest_reg := idlest_reg p; clksel_reg := clksel_reg p;
     last_rounded_mult := last_rounded_mult p; last_rounded_div := last_rounded_div p;
     max_rate := v |}.

Definition set_clkmode_reg (p : clk_ti_am3_dpll_priv) (v : Z) : clk_ti_am3_dpll_priv :=
  {| clkmode_reg := v; idlest_reg := idlest_reg p; clksel_reg := clksel_reg p;
     last_rounded_mult := last_rounded_mult p; last_rounded_div := last_rounded_div p;
     max_rate := max_rate p |}.

Definition set_idlest_reg (p : clk_ti_am3_dpll_priv) (v : Z) : clk_ti_am3_dpll_priv :=
  {| clkmode_reg := clkmode_reg p; idlest_reg := v; clksel_reg := clksel_reg p;
     last_rounded_mult := last_rounded_mult p; last_rounded_div := last_rounded_div p;
     max_rate := max_rate p |}.

Definition set_clksel_reg (p : clk_ti_am3_dpll_priv) (v : Z) : clk_ti_am3_dpll_priv :=
  {| clkmode_reg := clkmode_reg p; idlest_reg := idlest_reg p; clksel_reg := v;
     last_rounded_mult := last_rounded_mult p; last_rounded_div := last_rounded_div p;
     max_rate := max_rate p |}.

(** An assignment to a field of the private data. *)
Definition assign (f : clk_ti_am3_dpll_priv -> clk_ti_am3_dpll_priv) : M unit :=
  fun s => (Returned tt, {| priv := f (priv s); log := log s |}).

Section OfToPlat.

(** [dev_get_driver_data(dev)], the device tree behind
    [dev_read_addr_index(dev, i)], and the constant [FDT_ADDR_T_NONE] of
    fdtdec.h. *)
Variable data : clk_ti_am3_dpll_drv_data.
Variable dev_read_addr_index : Z -> Z.
Variable FDT_ADDR_T_NONE : Z.

Definition clk_ti_am3_dpll_of_to_plat : M Z :=
  assign (fun p => set_max_rate p (data_max_rate data)) ;;;
  assign (fun p => set_clkmode_reg p (dev_read_addr_index 0)) ;;;
  p <- dev_get_priv ;;
  if clkmode_reg p =? FDT_ADDR_T_NONE then
    dev_err "failed to get clkmode register" ;;; pure (- EINVAL)
  else
    dev_dbg "clkmode_reg=0x%08lx" [clkmode_reg p] ;;;
    assign (fun p => set_idlest_reg p (dev_read_addr_index 1)) ;;;
    p <- dev_get_priv ;;
    if idlest_reg p =? FDT_ADDR_T_NONE then
      dev_err "failed to get idlest register" ;;; pure (- EINVAL)
    else
      dev_dbg "idlest_reg=0x%08lx" [idlest_reg p] ;;;
      assign (fun p => set_clksel_reg p (dev_read_addr_index 2)) ;;;
      p <- dev_get_priv ;;
      if clksel_reg p =? FDT_ADDR_T_NONE then
        dev_err "failed to get clksel register" ;;; pure (- EINVAL)
      else
        dev_dbg "clksel_reg=0x%08lx" [clksel_reg p] ;;;
        pure 0.

End OfToPlat.

(** The calls of [clk_ti_am3_dpll_probe] and [clk_ti_am3_dpll_remove] to
    the clock framework, with the member of the private data they are given
    and the [int] they return, and the error messages. *)
Inductive bind_event : Type :=
| Clk_get_by_index (index : Z) (into : clk_handle) (err : Z)
| Clk_release_all (c : clk_handle) (count : Z) (err : Z)
| Bind_err (msg : string).

(** What the clock framework answers, from the calls made so far (most
    recent first). *)
Record clk_framework : Type := {
  get_by_index : list bind_event -> Z -> clk_handle -> Z;
  release_all : list bind_event -> clk_handle -> Z -> Z
}.

Section Bind.

Variable fw : clk_framework.

(** The return value and the calls made, from the calls [l] made before. *)
Definition clk_ti_am3_dpll_probe (l : list bind_event) : Z * list bind_event :=
  let err := get_by_index fw l 0 clk_ref in
  let l := Clk_get_by_index 0 clk_ref err :: l in
  if negb (err =? 0) then (err, Bind_err "failed to get reference clock" :: l)
  else
    let err := get_by_index fw l 1 clk_bypass in
    let l := Clk_get_by_index 1 clk_bypass err :: l in
    if negb (err =? 0) then (err, Bind_err "failed to get bypass clock" :: l)
    else (0, l).

Definition clk_ti_am3_dpll_remove (l : list bind_event) : Z * list bind_event :=
  let err := release_all fw l clk_bypass 1 in
  let l := Clk_release_all clk_bypass 1 err :: l in
  if negb (err =? 0) then (err, Bind_err "failed to release bypass clock" :: l)
  else
    let err := release_all fw l clk_ref 1 in
    let l := Clk_release_all clk_ref 1 err :: l in
    if negb (err =? 0) then (err, Bind_err "failed to release reference clock" :: l)
    else (0, l).

End Bind.

(** The events of [clk_ti_am3_dpll_get_rate]: reads, clock queries and
    debug messages. *)
Definition reads_only (e : event) : bool :=
  match e with
  | Readl _ _ | Clk_get_rate _ _ | Dev_dbg _ _ => true
  | _ => false
  end.

(** The six register accesses of [clk_ti_am3_dpll_set_rate], most recent
    first. *)
Definition register_sequence (h : clock_h) (p : clk_ti_am3_dpll_priv)
    (v : Z) (bypassed locked : bool) : list event :=
  [ Wait_on_value (ST_DPLL_CLK_MASK h) (ST_DPLL_CLK_MASK h) (idlest_reg p) (LDELAY h) locked;
    Clrsetbits_le32 (clkmode_reg p) (CM_CLKMODE_DPLL_DPLL_EN_MASK h)
      (Z.shiftl (DPLL_EN_LOCK h) (CM_CLKMODE_DPLL_EN_SHIFT h));
    Writel (set_m_n h v (last_rounded_mult p) (last_rounded_div p)) (clksel_reg p);
    Wait_on_value (ST_DPLL_CLK_MASK h) 0 (idlest_reg p) (LDELAY h) bypassed;
    Clrsetbits_le32 (clkmode_reg p) (CM_CLKMODE_DPLL_DPLL_EN_MASK h)
      (Z.shiftl (DPLL_EN_MN_BYPASS h) (CM_CLKMODE_DPLL_EN_SHIFT h));
    Readl (clksel_reg p) v ].

(** A clock framework that answers the same whatever happened before. *)
Definition steady_framework (get_ref get_bypass rel_ref rel_bypass : Z) : clk_framework :=
  {| get_by_index := fun _ _ c => match c with clk_ref => get_ref | clk_bypass => get_bypass end;
     release_all := fun _ c _ => match c with clk_ref => rel_ref | clk_bypass => rel_bypass end |}.

(** * Properties *)

(** ** Machine integers that do not wrap *)

Lemma to_unsigned_small w x : 0 <= x < 2 ^ w -> to_unsigned w x = x.
Proof. intros Hx. unfold to_unsigned. apply Z.mod_small. exact Hx. Qed.

Lemma to_unsigned_range w x : 0 <= w -> 0 <= to_unsigned w x < 2 ^ w.
Proof. intros Hw. unfold to_unsigned. apply Z.mod_pos_bound. apply Z.pow_pos_nonneg; lia. Qed.

Lemma to_signed_small w x :
  0 < w -> - 2 ^ (w - 1) <= x < 2 ^ (w - 1) -> to_signed w x = x.
Proof.
  intros Hw Hx. unfold to_signed.
  assert (Hp : 2 ^ w = 2 * 2 ^ (w - 1)).
  { replace w with (Z.succ (w - 1)) at 1 by lia. apply Z.pow_succ_r. lia. }
  rewrite Z.mod_small by lia. lia.
Qed.

Lemma to_signed_to_unsigned w x : to_signed w (to_unsigned w x) = to_signed w x.
Proof.
  unfold to_signed, to_unsigned. rewrite Zplus_mod_idemp_l. reflexivity.
Qed.

Lemma pow2_le_mono a b : 0 <= a <= b -> 2 ^ a <= 2 ^ b.
Proof. intros H. apply Z.pow_le_mono_r; lia. Qed.

Lemma candidate_err_exact W r rate :
  32 <= W -> Z.abs (r - rate) < 2 ^ 31 ->
  candidate_err W r rate = Z.abs (r - rate).
Proof.
  intros HW Habs. unfold candidate_err, abs, long, ulong, int.
  assert (H31 : 2 ^ 31 <= 2 ^ (W - 1)) by (apply pow2_le_mono; lia).
  rewrite to_signed_to_unsigned.
  rewrite (to_signed_small W (r - rate)) by lia.
  assert (Hb : (if r - rate <? 0 then - (r - rate) else r - rate) = Z.abs (r - rate)).
  { destruct (Z.ltb_spec (r - rate) 0); lia. }
  rewrite Hb.
  rewrite (to_signed_small W) by lia.
  apply to_signed_small; simpl; lia.
Qed.

Lemma candidate_exact W ref_rate m d :
  0 <= ref_rate * m < 2 ^ W -> candidate W ref_rate m d = ref_rate * m / d.
Proof.
  intros H. unfold candidate, ulong. rewrite to_unsigned_small by exact H. reflexivity.
Qed.

(** ** The search visits pairs of the search space only *)

Lemma upto_bounds n : forall from, Forall (fun x => from <= x < from + Z.of_nat n) (upto n from).
Proof.
  induction n as [|n IH]; intros from; cbn [upto]; constructor.
  - lia.
  - eapply Forall_impl; [|apply IH]. cbn beta. intros x Hx. lia.
Qed.

Lemma mults_bounds : Forall (fun m => 2 <= m <= 2047) mults.
Proof.
  eapply Forall_impl; [|apply (upto_bounds 2046 2)]. cbn beta. intros m Hm. lia.
Qed.

Lemma divs_bounds : Forall (fun d => 1 <= d <= 128) divs.
Proof.
  eapply Forall_impl; [|apply (upto_bounds 128 1)]. cbn beta. intros d Hd. lia.
Qed.

Section SearchShape.

Variables (W ref_rate rate : Z).

Lemma scan_m_shape d ms :
  1 <= d <= 128 -> Forall (fun m => 2 <= m <= 2047) ms ->
  forall b, untouched_or_accepted W ref_rate rate b ->
            untouched_or_accepted W ref_rate rate (scan_m W ref_rate rate d ms b).
Proof.
  intros Hd Hms. induction Hms as [|m ms Hm _ IH]; intros b Hb; cbn [scan_m].
  - exact Hb.
  - destruct (_ <? err_min b).
    + assert (Hacc : untouched_or_accepted W ref_rate rate
                       {| err_min := candidate_err W (candidate W ref_rate m d) rate;
                          ret := candidate W ref_rate m d; mult := m; div := d |}).
      { right. repeat split; cbn; lia. }
      destruct (_ =? 0); [exact Hacc | apply IH; exact Hacc].
    + destruct (_ >? rate); [exact Hb | apply IH; exact Hb].
Qed.

Lemma scan_d_shape ds :
  Forall (fun d => 1 <= d <= 128) ds ->
  forall b, untouched_or_accepted W ref_rate rate b ->
            untouched_or_accepted W ref_rate rate (scan_d W ref_rate rate ds b).
Proof.
  intros Hds. induction Hds as [|d ds Hd _ IH]; intros b Hb; cbn [scan_d].
  - exact Hb.
  - destruct (err_min b =? 0); [exact Hb|].
    apply IH. apply scan_m_shape; [exact Hd | exact mults_bounds | exact Hb].
Qed.

(** Whatever the inputs, the search leaves its locals as they were
    initialised or holds a pair of the search space. *)
Lemma search_shape :
  search W ref_rate rate = best_init W rate \/
  accepted W ref_rate rate (search W ref_rate rate).
Proof.
  unfold search. apply scan_d_shape; [exact divs_bounds | left; reflexivity].
Qed.

End SearchShape.

(** ** The search accepts only what improves on its initial error *)

Section SearchImproves.

Variables (W ref_rate rate : Z).

Lemma scan_m_improves d ms :
  1 <= d <= 128 -> Forall (fun m => 2 <= m <= 2047) ms ->
  forall b, b = best_init W rate \/ improved W ref_rate rate b ->
            scan_m W ref_rate rate d ms b = best_init W rate \/
            improved W ref_rate rate (scan_m W ref_rate rate d ms b).
Proof.
  intros Hd Hms. induction Hms as [|m ms Hm _ IH]; intros b Hb; cbn [scan_m].
  - exact Hb.
  - destruct (Z.ltb_spec (candidate_err W (candidate W ref_rate m d) rate) (err_min b))
      as [Hlt | Hge].
    + assert (Hle : err_min b <= int rate).
      { destruct Hb as [-> | [_ Hb]]; [cbn [best_init err_min] | ]; lia. }
      assert (Himp : improved W ref_rate rate
                       {| err_min := candidate_err W (candidate W ref_rate m d) rate;
                          ret := candidate W ref_rate m d; mult := m; div := d |}).
      { split; [repeat split; cbn; lia | cbn [err_min]; lia]. }
      destruct (_ =? 0); [right; exact Himp | apply IH; right; exact Himp].
    + destruct (_ >? rate); [exact Hb | apply IH; exact Hb].
Qed.

Lemma scan_d_improves ds :
  Forall (fun d => 1 <= d <= 128) ds ->
  forall b, b = best_init W rate \/ improved W ref_rate rate b ->
            scan_d W ref_rate rate ds b = best_init W rate \/
            improved W ref_rate rate (scan_d W ref_rate rate ds b).
Proof.
  intros Hds. induction Hds as [|d ds Hd _ IH]; intros b Hb; cbn [scan_d].
  - exact Hb.
  - destruct (err_min b =? 0); [exact Hb|].
    apply IH. apply scan_m_improves; [exact Hd | exact mults_bounds | exact Hb].
Qed.

(** Whatever the inputs, the locals of the search are as initialised, or
    hold an accepted pair with an error below the initial one. *)
Lemma search_improves :
  search W ref_rate rate = best_init W rate \/
  improved W ref_rate rate (search W ref_rate rate).
Proof.
  unfold search. apply scan_d_improves; [exact divs_bounds | left; reflexivity].
Qed.

Lemma candidate_range m d : 0 <= W -> 1 <= d -> 0 <= candidate W ref_rate m d < 2 ^ W.
Proof.
  intros HW Hd. unfold candidate, ulong.
  pose proof (to_unsigned_range W (ref_rate * m) HW) as Hx. split.
  - apply Z.div_pos; lia.
  - apply Z.div_lt_upper_bound; [lia | nia].
Qed.

Lemma candidate_err_wrap r : 0 <= W -> candidate_err W (r - 2 ^ W) rate = candidate_err W r rate.
Proof.
  intros HW. unfold candidate_err, ulong, to_unsigned.
  replace (r - 2 ^ W - rate) with (r - rate + (- 1) * 2 ^ W) by ring.
  rewrite Z.mod_add; [reflexivity|].
  apply Z.pow_nonzero; lia.
Qed.

(** With a target below [2^31 - MAX_ERRNO], a rate in the range of the
    error values is further from the target than the target is from 0, so
    the loops do not accept it. *)
Lemma improved_not_err b :
  32 <= W -> 0 <= rate < 2 ^ 31 - MAX_ERRNO ->
  improved W ref_rate rate b -> IS_ERR_VALUE W (ret b) = false.
Proof.
  intros HW Hrate [([Hm Hd] & Hret & Herr) Hlt].
  unfold IS_ERR_VALUE. apply Z.leb_gt.
  assert (H12 : 2 ^ 12 <= 2 ^ W) by (apply pow2_le_mono; lia).
  assert (Hmax : ulong W (- MAX_ERRNO) = 2 ^ W - MAX_ERRNO).
  { unfold ulong, to_unsigned, MAX_ERRNO in *.
    symmetry. apply (Z.mod_unique (- 4095) (2 ^ W) (- 1) (2 ^ W - 4095)); lia. }
  rewrite Hmax.
  destruct (Z.lt_ge_cases (ret b) (2 ^ W - MAX_ERRNO)) as [Hok | Hbad]; [exact Hok | exfalso].
  pose proof (candidate_range (mult b) (div b) ltac:(lia) ltac:(lia)) as Hr.
  rewrite <- Hret in Hr.
  assert (Hint : int rate = rate).
  { unfold int. apply to_signed_small; [lia|]. change (2 ^ (32 - 1)) with (2 ^ 31). lia. }
  rewrite <- candidate_err_wrap in Herr by lia.
  rewrite candidate_err_exact in Herr by (unfold MAX_ERRNO in *; lia).
  unfold MAX_ERRNO in *. lia.
Qed.

End SearchImproves.

(** ** The search finds the nearest pair when nothing wraps *)

Ltac order := unfold visited_before, in_range in *; lia.

Section SearchCorrect.

Variables (W ref_rate rate : Z).
Hypothesis HW : 32 <= W.
Hypothesis Hrate : 0 < rate.
Hypothesis Href : 0 < ref_rate.
Hypothesis Hint : rate + 2 * ref_rate < 2 ^ 31.
Hypothesis Hlong : 256 * rate + 2 * ref_rate <= 2 ^ W.


Lemma int_rate : int rate = rate.
Proof. apply to_signed_small; simpl; lia. Qed.

Lemma err_min_init : err_min (best_init W rate) = rate.
Proof. simpl. apply int_rate. Qed.

Lemma wf_err_min_le b : wf W ref_rate rate b -> err_min b <= rate.
Proof.
  intros [-> | (_ & _ & _ & H)]; [rewrite err_min_init|]; lia.
Qed.

Lemma init_not_chosen : ~ chosen ref_rate rate (best_init W rate).
Proof. intros (_ & _ & _ & H). rewrite err_min_init in H. lia. Qed.

Lemma exact_rate_nonneg m d : 0 <= m -> 0 < d -> 0 <= exact_rate ref_rate m d.
Proof. intros. unfold exact_rate. apply Z.div_pos; nia. Qed.

Lemma exact_rate_mono m m' d : 0 < d -> m <= m' -> exact_rate ref_rate m d <= exact_rate ref_rate m' d.
Proof. intros. unfold exact_rate. apply Z.div_le_mono; nia. Qed.

(** The products the loop forms fit [unsigned long], and the rates it
    compares are less than [2^31] away from the target. *)
Lemma reached_product m d :
  in_range m d -> reached ref_rate rate m d ->
  0 <= ref_rate * m < 2 ^ W /\ exact_rate ref_rate m d - rate < 2 ^ 31.
Proof.
  intros [Hm Hd] [-> | Hprev].
  - split; [lia|]. unfold exact_rate.
    assert (ref_rate * 2 / d <= ref_rate * 2 / 1) by (apply Z.div_le_compat_l; lia).
    rewrite Z.div_1_r in *. lia.
  - unfold exact_rate in *.
    assert (Hlt : ref_rate * (m - 1) < 2 * rate * d).
    { pose proof (Z.div_mod (ref_rate * (m - 1)) d ltac:(lia)) as Hdm.
      pose proof (Z.mod_pos_bound (ref_rate * (m - 1)) d ltac:(lia)) as Hmb.
      nia. }
    assert (Hd' : 2 * rate * d <= 256 * rate) by nia.
    split; [nia|].
    assert (ref_rate * m / d < 2 * rate + ref_rate + 1); [|lia].
    apply Z.div_lt_upper_bound; [lia|]. nia.
Qed.

Lemma reached_exact m d :
  in_range m d -> reached ref_rate rate m d ->
  candidate W ref_rate m d = exact_rate ref_rate m d /\
  candidate_err W (exact_rate ref_rate m d) rate = exact_err ref_rate rate m d.
Proof.
  intros Hr Hre. destruct (reached_product m d Hr Hre) as [Hp Hb].
  split; [apply candidate_exact; exact Hp|].
  apply candidate_err_exact; [exact HW|].
  pose proof (exact_rate_nonneg m d) as Hn. destruct Hr as [? ?].
  specialize (Hn ltac:(lia) ltac:(lia)). lia.
Qed.

Lemma inv_zero_optimal b d0 m0 : inv W ref_rate rate b d0 m0 -> err_min b = 0 -> optimal ref_rate rate b.
Proof.
  intros (Hwf & Hpos & Hcov) Hz m d Hr. split.
  - rewrite Hz. unfold exact_err. lia.
  - intros Htie Hch.
    destruct (Z_lt_le_dec d d0) as [Hlt | Hge].
    + apply (Hcov m d Hr); auto. left; exact Hlt.
    + destruct (Hpos Hch) as [H1 | [H1 H2]]; [lia|].
      destruct (Z.eq_dec d d0) as [-> | Hne]; [|lia].
      destruct (Z_lt_le_dec m m0) as [Hm | Hm].
      * apply (Hcov m d0 Hr); auto. right; lia.
      * right. lia.
Qed.

Lemma inv_all_optimal b : inv W ref_rate rate b 129 2 -> optimal ref_rate rate b.
Proof.
  intros (Hwf & Hpos & Hcov) m d Hr. apply Hcov; [exact Hr|]. order.
Qed.

Lemma inv_next_row b d : inv W ref_rate rate b d 2048 -> inv W ref_rate rate b (d + 1) 2.
Proof.
  intros (Hwf & Hpos & Hcov). split; [exact Hwf|]. split.
  - intros Hch. specialize (Hpos Hch). order.
  - intros m d' Hr Hv. apply Hcov; [exact Hr|]. order.
Qed.

(** The inner loop, by induction on the multipliers left. *)
Lemma scan_m_inv d (Hd : 1 <= d <= 128) :
  forall n m0 b,
    m0 + Z.of_nat n = 2048 -> 2 <= m0 ->
    inv W ref_rate rate b d m0 -> reached ref_rate rate m0 d ->
    row_done W ref_rate rate (scan_m W ref_rate rate d (upto n m0) b) d.
Proof.
  induction n as [|n IH]; intros m0 b Hn Hm0 Hinv Hre.
  - simpl. left. apply inv_next_row. replace 2048 with m0 by lia. exact Hinv.
  - assert (Hr : in_range m0 d) by (split; lia).
    destruct (reached_exact m0 d Hr Hre) as [Hc He].
    cbn [upto scan_m]. rewrite Hc, He.
    destruct Hinv as (Hwf & Hpos & Hcov).
    pose proof (wf_err_min_le b Hwf) as Hle.
    destruct (Z.ltb_spec (exact_err ref_rate rate m0 d) (err_min b)) as [Hlt | Hge].
    + (* a nearer pair *)
      set (b' := {| err_min := exact_err ref_rate rate m0 d; ret := exact_rate ref_rate m0 d; mult := m0; div := d |}).
      assert (Hch : chosen ref_rate rate b').
      { split; [exact Hr|]. cbn. split; [reflexivity|]. split; [reflexivity|]. lia. }
      assert (Hinv' : inv W ref_rate rate b' d (m0 + 1)).
      { split; [right; exact Hch|]. split.
        - intros _. right. cbn. lia.
        - intros m d' Hr' Hv. cbn [err_min b' div mult].
          destruct (Z.eq_dec d' d) as [-> | Hne].
          + destruct (Z.eq_dec m m0) as [-> | Hnm].
            * split; [lia|]. intros _ _. right. lia.
            * assert (Hv' : visited_before d m d m0) by order.
              destruct (Hcov m d Hr' Hv') as [H1 _]. split; [lia|]. intros; lia.
          + assert (Hv' : visited_before d' m d m0) by order.
            destruct (Hcov m d' Hr' Hv') as [H1 _]. split; [lia|]. intros; lia. }
      destruct (Z.eqb_spec (exact_err ref_rate rate m0 d) 0) as [Hz | Hnz].
      * right. split; [exact Hz|]. split; [right; exact Hch|].
        apply (inv_zero_optimal b' d (m0 + 1) Hinv'). exact Hz.
      * apply IH; [lia | lia | exact Hinv' |].
        right. replace (m0 + 1 - 1) with m0 by lia.
        unfold exact_err in Hlt. lia.
    + destruct (Z.gtb_spec (exact_rate ref_rate m0 d) rate) as [Hgt | Hngt].
      * (* past the target: the rest of the row is farther still *)
        left. split; [exact Hwf|]. split.
        { intros Hch. specialize (Hpos Hch). order. }
        intros m d' Hr' Hv.
        destruct (Z_lt_le_dec d' d) as [Hd' | Hd'].
        { apply Hcov; [exact Hr'|]. left; exact Hd'. }
        assert (d' = d) by order. subst d'.
        destruct (Z_lt_le_dec m m0) as [Hm | Hm].
        { apply Hcov; [exact Hr'|]. right; lia. }
        pose proof (exact_rate_mono m0 m d ltac:(lia) Hm) as Hmono.
        unfold exact_err in *. split; [lia|].
        intros Htie Hch. specialize (Hpos Hch). order.
      * apply IH; [lia | lia | |].
        { split; [exact Hwf|]. split.
          - intros Hch. specialize (Hpos Hch). order.
          - intros m d' Hr' Hv.
            destruct (Z.eq_dec d' d) as [-> | Hne].
            + destruct (Z.eq_dec m m0) as [-> | Hnm].
              * split; [lia|]. intros _ Hch. specialize (Hpos Hch). order.
              * apply Hcov; [exact Hr'|]. order.
            + apply Hcov; [exact Hr'|]. order. }
        right. replace (m0 + 1 - 1) with m0 by lia. lia.
Qed.

Lemma row_done_wf b d : row_done W ref_rate rate b d -> wf W ref_rate rate b.
Proof. intros [(H & _) | (_ & H & _)]; exact H. Qed.

(** The outer loop, by induction on the dividers left. *)
Lemma scan_d_optimal :
  forall n d0 b,
    d0 + Z.of_nat n = 129 -> 1 <= d0 ->
    row_done W ref_rate rate b (d0 - 1) ->
    wf W ref_rate rate (scan_d W ref_rate rate (upto n d0) b) /\
    optimal ref_rate rate (scan_d W ref_rate rate (upto n d0) b).
Proof.
  induction n as [|n IH]; intros d0 b Hn Hd0 Hrow.
  - simpl. split; [eapply row_done_wf; eauto|].
    destruct Hrow as [Hinv | (_ & _ & Hopt)]; [|exact Hopt].
    apply inv_all_optimal. replace 129 with (d0 - 1 + 1) by lia. exact Hinv.
  - cbn [upto scan_d].
    destruct (Z.eqb_spec (err_min b) 0) as [Hz | Hnz].
    + split; [eapply row_done_wf; eauto|].
      destruct Hrow as [Hinv | (_ & _ & Hopt)]; [|exact Hopt].
      eapply inv_zero_optimal; eauto.
    + destruct Hrow as [Hinv | (Hz & _)]; [|lia].
      replace (d0 - 1 + 1) with d0 in Hinv by lia.
      apply IH; [lia | lia |].
      replace (d0 + 1 - 1) with d0 by lia.
      apply (scan_m_inv d0 ltac:(lia) 2046%nat 2 b); [reflexivity | lia | exact Hinv |].
      left; reflexivity.
Qed.

Lemma inv_init : inv W ref_rate rate (best_init W rate) 1 2.
Proof.
  split; [left; reflexivity|]. split.
  - intros H. destruct (init_not_chosen H).
  - intros m d Hr Hv. order.
Qed.

Lemma search_optimal :
  wf W ref_rate rate (search W ref_rate rate) /\ optimal ref_rate rate (search W ref_rate rate).
Proof.
  unfold search, divs.
  apply (scan_d_optimal 128%nat 1 (best_init W rate)); [reflexivity | lia |].
  left. exact inv_init.
Qed.

(** A rate the search found is not the failure value. *)
Lemma chosen_not_no_solution b : chosen ref_rate rate b -> ret b <> no_solution W.
Proof.
  intros ([Hm Hd] & Hret & Herr & Hlt) Heq.
  assert (Hns : no_solution W = 2 ^ W - 14).
  { unfold no_solution, ulong, to_unsigned, EFAULT.
    assert (2 ^ 32 <= 2 ^ W) by (apply pow2_le_mono; lia).
    symmetry. apply (Z.mod_unique (- 14) (2 ^ W) (- 1) (2 ^ W - 14)); lia. }
  rewrite Hns, Hret in Heq. rewrite Herr in Hlt. unfold exact_err in Hlt.
  rewrite Heq in Hlt. lia.
Qed.

End SearchCorrect.

(** ** [clk_ti_am3_dpll_round_rate] *)

(** One call, written out. *)
Lemma round_rate_run W plat rate0 s :
  let p := priv s in
  let l := if negb (max_rate p =? 0) && (rate0 >? max_rate p)
           then too_high rate0 (max_rate p) :: log s else log s in
  clk_ti_am3_dpll_round_rate W plat rate0 s =
  searched W (ulong W (parent_rate plat l clk_ref)) (clamp_rate p rate0) p l.
Proof.
  unfold clk_ti_am3_dpll_round_rate, searched, clamp_rate, bind, dev_get_priv.
  cbv zeta. destruct (negb (max_rate (priv s) =? 0) && (rate0 >? max_rate (priv s))); reflexivity.
Qed.

Lemma clamp_rate_above p rate0 :
  max_rate p <> 0 -> rate0 > max_rate p -> clamp_rate p rate0 = max_rate p.
Proof.
  intros Hnz Hgt. unfold clamp_rate.
  destruct (Z.eqb_spec (max_rate p) 0); [contradiction|].
  destruct (Z.gtb_spec rate0 (max_rate p)); [reflexivity | lia].
Qed.

Lemma clamp_rate_below p rate0 :
  max_rate p = 0 \/ rate0 <= max_rate p -> clamp_rate p rate0 = rate0.
Proof.
  intros H. unfold clamp_rate.
  destruct (Z.eqb_spec (max_rate p) 0); [reflexivity|].
  destruct (Z.gtb_spec rate0 (max_rate p)); [lia | reflexivity].
Qed.

(** C4.  A target above a configured ceiling is replaced by the ceiling:
    after the warning the call goes on exactly as a call with the ceiling as
    its target, and its loops run on the ceiling.  Without a ceiling, or with
    a target that does not exceed it, the loops run on the target itself. *)
Theorem round_rate_clamps W plat rate0 s :
  (max_rate (priv s) <> 0 -> rate0 > max_rate (priv s) ->
   let warned := record (too_high rate0 (max_rate (priv s))) s in
   clk_ti_am3_dpll_round_rate W plat rate0 s =
   clk_ti_am3_dpll_round_rate W plat (max_rate (priv s)) warned /\
   clk_ti_am3_dpll_round_rate W plat rate0 s =
   searched W (ulong W (parent_rate plat (log warned) clk_ref))
            (max_rate (priv s)) (priv s) (log warned)) /\
  (max_rate (priv s) = 0 \/ rate0 <= max_rate (priv s) ->
   clk_ti_am3_dpll_round_rate W plat rate0 s =
   searched W (ulong W (parent_rate plat (log s) clk_ref)) rate0 (priv s) (log s)).
Proof.
  split.
  - intros Hnz Hgt warned. rewrite !round_rate_run. cbv zeta. subst warned. cbn [priv log record].
    rewrite clamp_rate_above by assumption.
    rewrite (clamp_rate_below (priv s) (max_rate (priv s))) by lia.
    destruct (Z.eqb_spec (max_rate (priv s)) 0); [contradiction|].
    destruct (Z.gtb_spec rate0 (max_rate (priv s))); [|lia].
    destruct (Z.gtb_spec (max_rate (priv s)) (max_rate (priv s))); [lia|].
    cbn [negb andb]. split; reflexivity.
  - intros H. rewrite round_rate_run. cbv zeta.
    rewrite clamp_rate_below by assumption.
    destruct (Z.eqb_spec (max_rate (priv s)) 0); [reflexivity|].
    destruct (Z.gtb_spec rate0 (max_rate (priv s))); [lia | reflexivity].
Qed.

Lemma round_rate_clamps_witness :
  let plat := steady_platform 24000000 24000000 (fun _ => 0) true true in
  let s := {| priv := am33xx_priv 1000000000; log := [] |} in
  clk_ti_am3_dpll_round_rate 32 plat 1500000000 s =
  clk_ti_am3_dpll_round_rate 32 plat 1000000000
    (record (too_high 1500000000 1000000000) s) /\
  clk_ti_am3_dpll_round_rate 32 plat 900000000 s =
  searched 32 24000000 900000000 (am33xx_priv 1000000000) [].
Proof.
  intros plat s. split.
  - apply (proj1 (round_rate_clamps 32 plat 1500000000 s)); cbn; lia.
  - apply (proj2 (round_rate_clamps 32 plat 900000000 s)). right. cbn. lia.
Defined.

Lemma search_24MHz_1GHz_ilp32 :
  search 32 24000000 1000000000
  = {| err_min := 0; ret := 1000000000; mult := 125; div := 3 |}.
Proof. vm_compute. reflexivity. Qed.

Lemma search_24MHz_1GHz_lp64 :
  search 64 24000000 1000000000
  = {| err_min := 0; ret := 1000000000; mult := 125; div := 3 |}.
Proof. vm_compute. reflexivity. Qed.

(** C2.  With a 24 MHz reference, a 1 GHz ceiling and a 1 GHz target the
    search reaches error 0: the call returns exactly 1,000,000,000, which
    does not exceed the target, and records multiplier 125 and divider 3.
    This holds with a 32 bit and with a 64 bit [unsigned long]. *)
Theorem round_rate_24MHz_1GHz W plat p :
  W = 32 \/ W = 64 ->
  max_rate p = 1000000000 ->
  ulong W (parent_rate plat [] clk_ref) = 24000000 ->
  exists s',
    run (clk_ti_am3_dpll_round_rate W plat 1000000000) p = (Returned 1000000000, s') /\
    err_min (search W 24000000 1000000000) = 0 /\
    last_rounded_mult (priv s') = 125 /\
    last_rounded_div (priv s') = 3 /\
    1000000000 <= 1000000000 /\
    24000000 * 125 / 3 = 1000000000.
Proof.
  intros HW Hmax Href. unfold run. rewrite round_rate_run. cbv zeta. cbn [priv log].
  rewrite clamp_rate_below by lia. rewrite Hmax. cbn [Z.eqb Z.gtb Z.compare Pos.compare
    Pos.compare_cont negb andb]. rewrite Href. unfold searched.
  destruct HW as [-> | ->];
    [rewrite search_24MHz_1GHz_ilp32 | rewrite search_24MHz_1GHz_lp64];
    eexists; repeat split; lia.
Qed.

Lemma round_rate_24MHz_1GHz_witness :
  exists s',
    run (clk_ti_am3_dpll_round_rate 32
           (steady_platform 24000000 24000000 (fun _ => 0) true true) 1000000000)
        (am33xx_priv 1000000000) = (Returned 1000000000, s') /\
    err_min (search 32 24000000 1000000000) = 0 /\
    last_rounded_mult (priv s') = 125 /\
    last_rounded_div (priv s') = 3 /\
    1000000000 <= 1000000000 /\
    24000000 * 125 / 3 = 1000000000.
Proof.
  apply (round_rate_24MHz_1GHz 32 (steady_platform 24000000 24000000 (fun _ => 0) true true)
           (am33xx_priv 1000000000)).
  - left. reflexivity.
  - reflexivity.
  - reflexivity.
Defined.

(** Where nothing can wrap the search finds the nearest pair.  Let the
    target (after clamping) and the reference rate be positive,
    [rate + 2 * ref_rate < 2^31] (the errors the loops compare fit an [int])
    and [256 * rate + 2 * ref_rate <= 2^ulong_bits] (the products the loops
    form fit an [unsigned long]).  If the call returns a rate rather than
    the failure value, the recorded pair has 2 <= mult <= 2047 and
    1 <= div <= 128, the returned rate is floor(ref_rate * mult / div), no
    pair of these ranges is nearer to the target, and of the nearest pairs
    it is the one with the smallest divider, then the smallest multiplier.
    The bounds are sufficient, not necessary. *)
Theorem round_rate_nearest W plat rate0 p v s' ref_rate :
  32 <= W ->
  run (clk_ti_am3_dpll_round_rate W plat rate0) p = (Returned v, s') ->
  In (Clk_get_rate clk_ref ref_rate) (log s') ->
  0 < clamp_rate p rate0 ->
  0 < ref_rate ->
  clamp_rate p rate0 + 2 * ref_rate < 2 ^ 31 ->
  256 * clamp_rate p rate0 + 2 * ref_rate <= 2 ^ W ->
  v <> no_solution W ->
  let rate := clamp_rate p rate0 in
  let mult := last_rounded_mult (priv s') in
  let div := last_rounded_div (priv s') in
  (2 <= mult <= 2047 /\ 1 <= div <= 128) /\
  v = ref_rate * mult / div /\
  (forall m d, 2 <= m <= 2047 -> 1 <= d <= 128 ->
     Z.abs (v - rate) <= Z.abs (ref_rate * m / d - rate)) /\
  (forall m d, 2 <= m <= 2047 -> 1 <= d <= 128 ->
     Z.abs (ref_rate * m / d - rate) = Z.abs (v - rate) ->
     div < d \/ (div = d /\ mult <= m)).
Proof.
  intros HW Hrun Hin Hrate Href Hint Hlong Hv rate mult0 div0.
  unfold run in Hrun. rewrite round_rate_run in Hrun. cbv zeta in Hrun.
  cbn [priv log] in Hrun. unfold searched in Hrun. injection Hrun as Hret Hs'.
  assert (Hr : ref_rate = ulong W (parent_rate plat
            (if negb (max_rate p =? 0) && (rate0 >? max_rate p)
             then [too_high rate0 (max_rate p)] else []) clk_ref)).
  { subst s'. cbn [log] in Hin.
    destruct Hin as [Hin | [Hin | Hin]]; [discriminate | congruence |].
    destruct (negb (max_rate p =? 0) && (rate0 >? max_rate p));
      [destruct Hin as [Hin | []]; discriminate | destruct Hin]. }
  rewrite <- Hr in Hret, Hs'. fold rate in Hret, Hs'.
  destruct (search_optimal W ref_rate rate HW Hrate Href Hint Hlong) as [Hwf Hopt].
  destruct Hwf as [Hinit | Hch].
  { exfalso. apply Hv. rewrite <- Hret, Hinit. reflexivity. }
  pose proof Hch as ([Hm Hd] & Hrate_eq & Herr_eq & _).
  assert (Hmult : mult0 = mult (search W ref_rate rate)).
  { subst mult0 s'. cbn [priv last_rounded_mult set_last_rounded].
    apply to_unsigned_small. lia. }
  assert (Hdiv : div0 = div (search W ref_rate rate)).
  { subst div0 s'. cbn [priv last_rounded_div set_last_rounded].
    apply to_unsigned_small. lia. }
  rewrite Hmult, Hdiv, <- Hret. clear Hmult Hdiv.
  split; [split; assumption|]. split; [exact Hrate_eq|].
  split.
  - intros m d Hm' Hd'. destruct (Hopt m d (conj Hm' Hd')) as [Hle _].
    rewrite Herr_eq in Hle. unfold exact_err in Hle. rewrite <- Hrate_eq in Hle. exact Hle.
  - intros m d Hm' Hd' Htie. destruct (Hopt m d (conj Hm' Hd')) as [_ Hfirst].
    apply Hfirst; [|exact Hch].
    rewrite Herr_eq. unfold exact_err. rewrite <- Hrate_eq. exact Htie.
Qed.

Lemma round_rate_nearest_witness :
  let plat := steady_platform 24000000 24000000 (fun _ => 0) true true in
  let p := am33xx_priv 1000000000 in
  let s' := snd (run (clk_ti_am3_dpll_round_rate 64 plat 1000000000) p) in
  let mult := last_rounded_mult (priv s') in
  let div := last_rounded_div (priv s') in
  (2 <= mult <= 2047 /\ 1 <= div <= 128) /\
  1000000000 = 24000000 * mult / div /\
  (forall m d, 2 <= m <= 2047 -> 1 <= d <= 128 ->
     Z.abs (1000000000 - 1000000000) <= Z.abs (24000000 * m / d - 1000000000)) /\
  (forall m d, 2 <= m <= 2047 -> 1 <= d <= 128 ->
     Z.abs (24000000 * m / d - 1000000000) = Z.abs (1000000000 - 1000000000) ->
     div < d \/ (div = d /\ mult <= m)).
Proof.
  intros plat p s'.
  apply (round_rate_nearest 64 plat 1000000000 p 1000000000 s' 24000000).
  - lia.
  - vm_compute. reflexivity.
  - vm_compute. right. left. reflexivity.
  - vm_compute. reflexivity.
  - lia.
  - vm_compute. reflexivity.
  - vm_compute. discriminate.
  - vm_compute. discriminate.
Defined.

(** ** The search where the arithmetic wraps *)

Lemma scan_d_cons W ref_rate rate d ds b :
  scan_d W ref_rate rate (d :: ds) b =
  if err_min b =? 0 then b else scan_d W ref_rate rate ds (scan_m W ref_rate rate d mults b).
Proof. reflexivity. Qed.

Lemma scan_d_done W ref_rate rate ds b :
  err_min b = 0 -> scan_d W ref_rate rate ds b = b.
Proof. intros Hz. destruct ds; cbn [scan_d]; [|rewrite Hz]; reflexivity. Qed.

Lemma scan_d_app W ref_rate rate ds1 ds2 :
  forall b,
    scan_d W ref_rate rate (ds1 ++ ds2) b =
    scan_d W ref_rate rate ds2 (scan_d W ref_rate rate ds1 b).
Proof.
  induction ds1 as [|d ds1 IH]; intros b; cbn [app scan_d]; [reflexivity|].
  destruct (Z.eqb_spec (err_min b) 0) as [Hz | Hnz].
  - symmetry. apply scan_d_done. exact Hz.
  - apply IH.
Qed.

(** A row none of whose rates is nearer or past the target changes nothing. *)
Lemma scan_m_unchanged W ref_rate rate d ms b :
  Forall (fun m => err_min b <= candidate_err W (candidate W ref_rate m d) rate /\
                   candidate W ref_rate m d <= rate) ms ->
  scan_m W ref_rate rate d ms b = b.
Proof.
  induction 1 as [|m ms [Herr Hle] _ IH]; cbn [scan_m]; [reflexivity|].
  destruct (Z.ltb_spec (candidate_err W (candidate W ref_rate m d) rate) (err_min b)); [lia|].
  destruct (Z.gtb_spec (candidate W ref_rate m d) rate); [lia | exact IH].
Qed.

(** With a 32 bit [unsigned long] the rates of the dividers from 5 on stay
    below [2^32 / 5], however large the multiplier. *)
Lemma candidate_ilp32_low ref_rate m d :
  5 <= d -> 0 <= candidate 32 ref_rate m d <= 858993459.
Proof.
  intros Hd. unfold candidate, ulong.
  pose proof (to_unsigned_range 32 (ref_rate * m) ltac:(lia)) as Hx.
  change (2 ^ 32) with 4294967296 in Hx. split.
  - apply Z.div_pos; lia.
  - apply Z.div_le_upper_bound; [lia|]. nia.
Qed.

Lemma scan_d_ilp32_rest ds :
  Forall (fun d => 5 <= d) ds ->
  scan_d 32 24000000 910000000 ds
    {| err_min := 2000000; ret := 912000000; mult := 38; div := 1 |}
  = {| err_min := 2000000; ret := 912000000; mult := 38; div := 1 |}.
Proof.
  induction 1 as [|d ds Hd _ IH]; [reflexivity|].
  rewrite scan_d_cons.
  rewrite scan_m_unchanged.
  - exact IH.
  - apply Forall_forall. intros m _.
    pose proof (candidate_ilp32_low 24000000 m d Hd) as Hr.
    assert (H31 : 2 ^ 31 = 2147483648) by reflexivity.
    rewrite candidate_err_exact by lia.
    cbn [err_min]. lia.
Qed.

(** The rows of the dividers 1 to 4 end with (38, 1), and the rest of the
    search keeps it. *)
Lemma search_24MHz_910MHz_ilp32 :
  search 32 24000000 910000000
  = {| err_min := 2000000; ret := 912000000; mult := 38; div := 1 |}.
Proof.
  unfold search, divs.
  change (upto 128 1) with (upto 4 1 ++ upto 124 5).
  rewrite scan_d_app.
  assert (Hrows : scan_d 32 24000000 910000000 (upto 4 1) (best_init 32 910000000)
                  = {| err_min := 2000000; ret := 912000000; mult := 38; div := 1 |})
    by (vm_compute; reflexivity).
  rewrite Hrows. rewrite scan_d_ilp32_rest; [reflexivity|].
  eapply Forall_impl; [|apply (upto_bounds 124 5)]. cbn beta. intros d Hd. lia.
Qed.

Lemma search_3GHz_1GHz_lp64 :
  search 64 3000000000 1000000000
  = {| err_min := -1884901888; ret := 12000000000; mult := 4; div := 1 |}.
Proof. vm_compute. reflexivity. Qed.

(** C1.  The loops go through the pairs in the order of the claim and keep
    the first strict improvement, but they miss the nearest pair where
    [r = (ref_rate * m) / d] is formed in [unsigned long] and wraps, or where
    the error does not fit the [int err].  With a 32 bit [unsigned long], a
    24 MHz reference and a 910 MHz target below the 1 GHz ceiling, the
    products [ref_rate * m] wrap from the divider 5 on: the call returns
    912,000,000 with the pair (38, 1), although the pair (455, 12) gives
    exactly 910,000,000.  With a 64 bit [unsigned long], a reference of
    3 GHz and a target of 1 GHz, the errors do not fit the [int] that holds
    them: the call returns 12,000,000,000 with the pair (4, 1), although the
    pair (2, 6) gives exactly 1,000,000,000. *)
Lemma round_rate_not_nearest :
  (exists s',
     run (clk_ti_am3_dpll_round_rate 32
            (steady_platform 24000000 24000000 (fun _ => 0) true true) 910000000)
         (am33xx_priv 1000000000) = (Returned 912000000, s') /\
     912000000 <> no_solution 32 /\
     last_rounded_mult (priv s') = 38 /\ last_rounded_div (priv s') = 1 /\
     (2 <= 455 <= 2047 /\ 1 <= 12 <= 128) /\
     Z.abs (24000000 * 455 / 12 - 910000000) < Z.abs (912000000 - 910000000)) /\
  (exists s',
     run (clk_ti_am3_dpll_round_rate 64
            (steady_platform 3000000000 3000000000 (fun _ => 0) true true) 1000000000)
         (am33xx_priv 1000000000) = (Returned 12000000000, s') /\
     12000000000 <> no_solution 64 /\
     last_rounded_mult (priv s') = 4 /\ last_rounded_div (priv s') = 1 /\
     (2 <= 2 <= 2047 /\ 1 <= 6 <= 128) /\
     Z.abs (3000000000 * 2 / 6 - 1000000000) < Z.abs (12000000000 - 1000000000)).
Proof.
  split.
  - unfold run. rewrite round_rate_run. cbv zeta. unfold searched.
    change (ulong 32 _) with 24000000.
    change (clamp_rate _ _) with 910000000.
    rewrite search_24MHz_910MHz_ilp32.
    eexists. split; [reflexivity|].
    cbn [priv last_rounded_mult last_rounded_div set_last_rounded mult div].
    split; [vm_compute; discriminate|]. split; [reflexivity|]. split; [reflexivity|].
    split; [lia|]. vm_compute. reflexivity.
  - unfold run. rewrite round_rate_run. cbv zeta. unfold searched.
    change (ulong 64 _) with 3000000000.
    change (clamp_rate _ _) with 1000000000.
    rewrite search_3GHz_1GHz_lp64.
    eexists. split; [reflexivity|].
    cbn [priv last_rounded_mult last_rounded_div set_last_rounded mult div].
    split; [vm_compute; discriminate|]. split; [reflexivity|]. split; [reflexivity|].
    split; [lia|]. vm_compute. reflexivity.
Qed.

(** ** The failure value of the search *)

Lemma no_solution_value W : 12 <= W -> no_solution W = 2 ^ W - 14.
Proof.
  intros HW. unfold no_solution, ulong, to_unsigned, EFAULT.
  assert (2 ^ 12 <= 2 ^ W) by (apply pow2_le_mono; lia).
  symmetry. apply (Z.mod_unique (- 14) (2 ^ W) (- 1) (2 ^ W - 14)); lia.
Qed.

(** [IS_ERR_VALUE] holds of the failure value of the search. *)
Lemma no_solution_is_err W : 12 <= W -> IS_ERR_VALUE W (no_solution W) = true.
Proof.
  intros HW. unfold IS_ERR_VALUE. rewrite no_solution_value by exact HW.
  assert (2 ^ 12 <= 2 ^ W) by (apply pow2_le_mono; lia).
  assert (Hm : ulong W (- MAX_ERRNO) = 2 ^ W - 4095).
  { unfold ulong, to_unsigned, MAX_ERRNO.
    symmetry. apply (Z.mod_unique (- 4095) (2 ^ W) (- 1) (2 ^ W - 4095)); lia. }
  rewrite Hm. apply Z.leb_le. lia.
Qed.

(** Under a ceiling of the match table every target is clamped to less
    than [2^31 - MAX_ERRNO]. *)
Lemma of_match_target_below_errno name data p rate0 :
  In (name, data) clk_ti_am3_dpll_of_match ->
  max_rate p = data_max_rate data -> 0 <= rate0 ->
  0 <= clamp_rate p rate0 < 2 ^ 31 - MAX_ERRNO.
Proof.
  intros Hin Hmax Hrate.
  assert (Hc : max_rate p = 1000000000 \/ max_rate p = 2000000000).
  { rewrite Hmax. cbn [In clk_ti_am3_dpll_of_match] in Hin.
    destruct Hin as [H | [H | [H | []]]]; injection H as _ <-; cbn; auto. }
  assert (H31 : 2 ^ 31 = 2147483648) by reflexivity.
  unfold clamp_rate, MAX_ERRNO.
  destruct (Z.eqb_spec (max_rate p) 0); [lia|]. cbn [negb andb].
  destruct (Z.gtb_spec rate0 (max_rate p)); lia.
Qed.

(** C9.  Every call overwrites the fields [last_rounded_mult] and
    [last_rounded_div] of the private data, whatever they held before, with
    the multiplier and the divider its loops end with, converted to [u16]
    and [u8].  When no pair was accepted the call returns the failure value
    and the fields then hold 65535, [(u16)INT_MAX], and 255, [(u8)INT_MAX],
    outside 2..2047 and 1..128; otherwise they hold the accepted pair, inside
    these ranges.  With an [unsigned long] of 32 bits or more and a target
    (after clamping) below [2^31 - MAX_ERRNO], which every ceiling of the
    match table ensures ([of_match_target_below_errno]), the call fails,
    that is returns an error value, exactly when it returns the failure
    value of the search and exactly when the two fields hold 65535 and
    255. *)
Theorem round_rate_stores W plat rate0 s :
  exists v s' ref_rate,
    let rate := clamp_rate (priv s) rate0 in
    let b := search W ref_rate rate in
    clk_ti_am3_dpll_round_rate W plat rate0 s = (Returned v, s') /\
    log s' = Dev_dbg "rate=%ld, best_rate=%ld, mult=%d, div=%d" [rate; v; mult b; div b]
             :: Clk_get_rate clk_ref ref_rate
             :: (if negb (max_rate (priv s) =? 0) && (rate0 >? max_rate (priv s))
                 then [too_high rate0 (max_rate (priv s))] else []) ++ log s /\
    v = ret b /\
    last_rounded_mult (priv s') = u16 (mult b) /\
    last_rounded_div (priv s') = u8 (div b) /\
    (forall mult0 div0,
       clk_ti_am3_dpll_round_rate W plat rate0
         {| priv := set_last_rounded (priv s) mult0 div0; log := log s |}
       = (Returned v, s')) /\
    ((b = best_init W rate /\ v = no_solution W /\
      last_rounded_mult (priv s') = 65535 /\ last_rounded_div (priv s') = 255 /\
      ~ 2 <= last_rounded_mult (priv s') <= 2047 /\
      ~ 1 <= last_rounded_div (priv s') <= 128) \/
     (accepted W ref_rate rate b /\
      last_rounded_mult (priv s') = mult b /\ last_rounded_div (priv s') = div b /\
      2 <= last_rounded_mult (priv s') <= 2047 /\
      1 <= last_rounded_div (priv s') <= 128)) /\
    (32 <= W -> 0 <= rate < 2 ^ 31 - MAX_ERRNO ->
     (IS_ERR_VALUE W v = true <-> v = no_solution W) /\
     (IS_ERR_VALUE W v = true <->
      last_rounded_mult (priv s') = 65535 /\ last_rounded_div (priv s') = 255)).
Proof.
  rewrite round_rate_run. cbv zeta. unfold searched.
  set (l := if negb (max_rate (priv s) =? 0) && (rate0 >? max_rate (priv s))
            then too_high rate0 (max_rate (priv s)) :: log s else log s).
  set (ref_rate := ulong W (parent_rate plat l clk_ref)).
  set (rate := clamp_rate (priv s) rate0).
  set (b := search W ref_rate rate).
  eexists. eexists. exists ref_rate. fold rate. fold b.
  split; [reflexivity|]. cbn [priv log last_rounded_mult last_rounded_div set_last_rounded].
  split.
  { subst l. destruct (negb (max_rate (priv s) =? 0) && (rate0 >? max_rate (priv s)));
      reflexivity. }
  split; [reflexivity|]. split; [reflexivity|]. split; [reflexivity|].
  split.
  { intros mult0 div0. rewrite round_rate_run. cbv zeta. unfold searched.
    cbn [priv log max_rate set_last_rounded].
    fold l. fold ref_rate.
    replace (clamp_rate (set_last_rounded (priv s) mult0 div0) rate0) with rate
      by reflexivity.
    fold b. reflexivity. }
  destruct (search_improves W ref_rate rate) as [Hinit | Himp]; fold b in Hinit || fold b in Himp.
  - assert (Hm : u16 (mult b) = 65535) by (rewrite Hinit; reflexivity).
    assert (Hd : u8 (div b) = 255) by (rewrite Hinit; reflexivity).
    assert (Hv : ret b = no_solution W) by (rewrite Hinit; reflexivity).
    split.
    + left. rewrite Hm, Hd. repeat split; try assumption; lia.
    + intros HW _. rewrite Hv, Hm, Hd. rewrite no_solution_is_err by lia.
      split; split; intros _; try reflexivity; split; reflexivity.
  - pose proof Himp as [Hacc _]. pose proof Hacc as ([Hm Hd] & _).
    assert (Hm16 : u16 (mult b) = mult b) by (apply to_unsigned_small; lia).
    assert (Hd8 : u8 (div b) = div b) by (apply to_unsigned_small; lia).
    split.
    + right. rewrite Hm16, Hd8. split; [exact Hacc|]. repeat split; lia.
    + intros HW Hrate. pose proof (improved_not_err W ref_rate rate b HW Hrate Himp) as Hok.
      rewrite Hok, Hm16. split; split.
      * discriminate.
      * intros Hv. rewrite Hv, no_solution_is_err in Hok by lia. discriminate.
      * discriminate.
      * intros [H65535 _]. lia.
Qed.

Lemma round_rate_stores_witness :
  let plat := steady_platform 24000000 24000000 (fun _ => 0) true true in
  let s := {| priv := set_last_rounded (am33xx_priv 1000000000) 125 3; log := [] |} in
  exists v s',
    clk_ti_am3_dpll_round_rate 32 plat 1 s = (Returned v, s') /\
    ((IS_ERR_VALUE 32 v = true <-> v = no_solution 32) /\
     (IS_ERR_VALUE 32 v = true <->
      last_rounded_mult (priv s') = 65535 /\ last_rounded_div (priv s') = 255)).
Proof.
  intros plat s.
  destruct (round_rate_stores 32 plat 1 s) as (v & s' & ref_rate & H).
  cbv zeta in H. destruct H as (Hrun & _ & _ & _ & _ & _ & _ & Hfail).
  exists v, s'. split; [exact Hrun|].
  apply Hfail.
  - lia.
  - vm_compute. split; [discriminate | reflexivity].
Defined.

(** ** [clk_ti_am3_dpll_set_rate] *)

(** One call, written out: the search, then either the early return or the
    whole bypass / program / lock sequence. *)
Lemma set_rate_run W h plat rate0 s :
  forall rr s1,
    clk_ti_am3_dpll_round_rate W plat rate0 s = (Returned rr, s1) ->
    if IS_ERR_VALUE W rr then
      clk_ti_am3_dpll_set_rate W h plat rate0 s = (Returned rr, s1)
    else
      exists (v : Z) (bypassed locked : bool),
        0 <= v < 2 ^ 32 /\
        clk_ti_am3_dpll_set_rate W h plat rate0 s =
        (if locked then Returned rr else Hung,
         {| priv := priv s1;
            log := programming_events h (priv s1) v bypassed locked ++ log s1 |}).
Proof.
  intros rr s1 Hrr. destruct (IS_ERR_VALUE W rr) eqn:Herr.
  - unfold clk_ti_am3_dpll_set_rate. unfold bind at 1. rewrite Hrr, Herr. reflexivity.
  - unfold clk_ti_am3_dpll_set_rate. unfold bind at 1. rewrite Hrr, Herr.
    cbv beta iota zeta delta [bind dev_get_priv readl clrsetbits_le32 wait_on_value writel pure].
    cbn [priv log record].
    match goal with |- context [u32 ?x] => set (v := u32 x) end.
    match goal with |- context [poll_result plat ?l ?a 0 ?c ?d] =>
      set (bypassed := poll_result plat l a 0 c d) end.
    exists v, bypassed.
    assert (Hv : 0 <= v < 2 ^ 32) by (apply to_unsigned_range; lia).
    destruct bypassed; cbv beta iota delta [dev_err]; cbn [priv log record];
      match goal with |- context [poll_result plat ?l ?a ?b ?c ?d] =>
        set (locked := poll_result plat l a b c d) end;
      exists locked; (split; [exact Hv|]);
      destruct locked; reflexivity.
Qed.

(** ** The bit fields of the select register *)

Ltac split_comparisons :=
  repeat match goal with
         | |- context [ ?a <? ?b ] => destruct (Z.ltb_spec a b)
         | |- context [ ?a <=? ?b ] => destruct (Z.leb_spec a b)
         | H : context [ ?a <? ?b ] |- _ => destruct (Z.ltb_spec a b)
         | H : context [ ?a <=? ?b ] |- _ => destruct (Z.leb_spec a b)
         end.

Lemma testbit_small x n i : 0 <= x < 2 ^ n -> n <= i -> Z.testbit x i = false.
Proof.
  intros Hx Hi. destruct (Z_lt_le_dec n 0) as [Hn | Hn].
  - rewrite Z.pow_neg_r in Hx by lia. lia.
  - rewrite <- (Z.mod_small x (2 ^ n)) by exact Hx.
    apply Z.mod_pow2_bits_high. lia.
Qed.

Section Fields.

Variable h : clock_h.
Hypothesis Hok : clock_h_ok h.

(** The bits of the value written, one by one. *)
Lemma testbit_set_m_n v mult div i :
  0 <= i ->
  Z.testbit (set_m_n h v mult div) i =
  (i <? 32) &&
  (if (CM_CLKSEL_DPLL_N_SHIFT h <=? i) && (i <? CM_CLKSEL_DPLL_N_SHIFT h + 7)
   then Z.testbit (div - 1) (i - CM_CLKSEL_DPLL_N_SHIFT h)
   else if (CM_CLKSEL_DPLL_M_SHIFT h <=? i) && (i <? CM_CLKSEL_DPLL_M_SHIFT h + 11)
        then Z.testbit mult (i - CM_CLKSEL_DPLL_M_SHIFT h)
        else Z.testbit v i).
Proof.
  intros Hi. destruct Hok as [[Hm0 Hm1] [Hn0 Hn1] Hmm Hnm Hdis].
  unfold set_m_n, u32, to_unsigned. rewrite Hmm, Hnm.
  Z.rewrite_bitwise.
  split_comparisons; cbn [andb orb negb]; try lia; try btauto.
Qed.

Lemma clksel_m_set_m_n v mult div :
  0 <= mult < 2 ^ 11 -> clksel_m h (set_m_n h v mult div) = mult.
Proof.
  intros Hmult. apply Z.bits_inj'. intros i Hi.
  unfold clksel_m, u32, to_unsigned.
  pose proof Hok as [[Hm0 Hm1] [Hn0 Hn1] Hmm Hnm Hdis].
  rewrite Z.shiftr_spec, Z.testbit_mod_pow2, Z.land_spec by lia.
  rewrite testbit_set_m_n by lia. rewrite Hmm.
  rewrite Z.shiftl_spec, Z.testbit_ones_nonneg by lia.
  replace (i + CM_CLKSEL_DPLL_M_SHIFT h - CM_CLKSEL_DPLL_M_SHIFT h) with i by lia.
  destruct (Z_lt_le_dec i 11) as [Hlt | Hge].
  - split_comparisons; cbn [andb]; try lia; try reflexivity.
    all: rewrite ?andb_true_r; reflexivity.
  - rewrite (testbit_small mult 11 i Hmult Hge).
    destruct (Z.ltb_spec i 11); [lia|]. rewrite !andb_false_r. reflexivity.
Qed.

Lemma clksel_n_set_m_n v mult div :
  0 <= div - 1 < 2 ^ 7 -> clksel_n h (set_m_n h v mult div) = div - 1.
Proof.
  intros Hdiv. apply Z.bits_inj'. intros i Hi.
  unfold clksel_n, u32, to_unsigned.
  pose proof Hok as [[Hm0 Hm1] [Hn0 Hn1] Hmm Hnm Hdis].
  rewrite Z.shiftr_spec, Z.testbit_mod_pow2, Z.land_spec by lia.
  rewrite testbit_set_m_n by lia. rewrite Hnm.
  rewrite Z.shiftl_spec, Z.testbit_ones_nonneg by lia.
  replace (i + CM_CLKSEL_DPLL_N_SHIFT h - CM_CLKSEL_DPLL_N_SHIFT h) with i by lia.
  destruct (Z_lt_le_dec i 7) as [Hlt | Hge].
  - split_comparisons; cbn [andb]; try lia; try reflexivity.
    all: rewrite ?andb_true_r; reflexivity.
  - rewrite (testbit_small (div - 1) 7 i Hdiv Hge).
    destruct (Z.ltb_spec i 7); [lia|]. rewrite !andb_false_r. reflexivity.
Qed.

Lemma set_m_n_frame v mult div i :
  0 <= v < 2 ^ 32 -> 0 <= i ->
  Z.testbit (CM_CLKSEL_DPLL_M_MASK h) i = false ->
  Z.testbit (CM_CLKSEL_DPLL_N_MASK h) i = false ->
  Z.testbit (set_m_n h v mult div) i = Z.testbit v i.
Proof.
  intros Hv Hi HM HN.
  pose proof Hok as [[Hm0 Hm1] [Hn0 Hn1] Hmm Hnm Hdis].
  rewrite Hmm in HM. rewrite Hnm in HN.
  rewrite Z.shiftl_spec, Z.testbit_ones in HM, HN by lia.
  rewrite testbit_set_m_n by exact Hi.
  destruct (Z.ltb_spec i 32) as [H32 | H32].
  - cbn [andb].
    split_comparisons; cbn [andb] in *; try lia; try reflexivity; try discriminate.
  - cbn [andb]. symmetry. apply (testbit_small v 32 i Hv H32).
Qed.
End Fields.

Lemma am33xx_clock_h_ok : clock_h_ok am33xx_clock_h.
Proof. split; cbn; try lia; reflexivity. Qed.

(** ** The sequence of [clk_ti_am3_dpll_set_rate] *)

(** The search part of a call: it returns, touches no register, keeps the
    register addresses, and when its value is not an error value the pair it
    stored is a pair of the search space. *)
Lemma round_rate_returns W plat rate0 s :
  exists rr s1 evs,
    clk_ti_am3_dpll_round_rate W plat rate0 s = (Returned rr, s1) /\
    log s1 = evs ++ log s /\
    Forall (fun e => touches_register e = false) evs /\
    (clkmode_reg (priv s1) = clkmode_reg (priv s) /\
     idlest_reg (priv s1) = idlest_reg (priv s) /\
     clksel_reg (priv s1) = clksel_reg (priv s)) /\
    (12 <= W -> IS_ERR_VALUE W rr = false ->
     2 <= last_rounded_mult (priv s1) <= 2047 /\
     1 <= last_rounded_div (priv s1) <= 128).
Proof.
  rewrite round_rate_run. cbv zeta. unfold searched.
  match goal with |- context [search W ?r ?t] => set (b := search W r t) end.
  eexists. eexists.
  exists (Dev_dbg "rate=%ld, best_rate=%ld, mult=%d, div=%d"
            [clamp_rate (priv s) rate0; ret b; mult b; div b]
          :: Clk_get_rate clk_ref
               (ulong W (parent_rate plat
                  (if negb (max_rate (priv s) =? 0) && (rate0 >? max_rate (priv s))
                   then too_high rate0 (max_rate (priv s)) :: log s else log s) clk_ref))
          :: (if negb (max_rate (priv s) =? 0) && (rate0 >? max_rate (priv s))
              then [too_high rate0 (max_rate (priv s))] else [])).
  split; [reflexivity|]. cbn [priv log set_last_rounded clkmode_reg idlest_reg clksel_reg
                              last_rounded_mult last_rounded_div].
  split; [destruct (negb _ && _); reflexivity|].
  split; [destruct (negb _ && _); repeat constructor|].
  split; [repeat split|].
  intros HW Herr. subst b.
  destruct (search_shape W
              (ulong W (parent_rate plat
                 (if negb (max_rate (priv s) =? 0) && (rate0 >? max_rate (priv s))
                  then too_high rate0 (max_rate (priv s)) :: log s else log s) clk_ref))
              (clamp_rate (priv s) rate0)) as [Hinit | ([Hm Hd] & _)].
  - exfalso. rewrite Hinit in Herr. cbn [ret best_init] in Herr.
    rewrite no_solution_is_err in Herr by exact HW. discriminate.
  - unfold u16, u8. rewrite (to_unsigned_small 16), (to_unsigned_small 8) by lia.
    split; assumption.
Qed.

(** C5.  When the search returns the failure value, the call returns it at
    once: the state is the one the search left, and none of the events of
    the call reads, writes, modifies or polls a register. *)
Theorem set_rate_no_solution W h plat rate0 s s1 :
  12 <= W ->
  clk_ti_am3_dpll_round_rate W plat rate0 s = (Returned (no_solution W), s1) ->
  clk_ti_am3_dpll_set_rate W h plat rate0 s = (Returned (no_solution W), s1) /\
  exists evs, log s1 = evs ++ log s /\ Forall (fun e => touches_register e = false) evs.
Proof.
  intros HW Hrr.
  pose proof (set_rate_run W h plat rate0 s _ _ Hrr) as Hrun.
  rewrite no_solution_is_err in Hrun by exact HW. split; [exact Hrun|].
  destruct (round_rate_returns W plat rate0 s) as (rr & s1' & evs & Heq & Hlog & Hno & _).
  rewrite Hrr in Heq. injection Heq as _ <-. exists evs. split; assumption.
Qed.

Lemma set_rate_no_solution_witness :
  let plat := steady_platform 24000000 24000000 (fun _ => 0) true true in
  let s := {| priv := am33xx_priv 1000000000; log := [] |} in
  let s1 := snd (clk_ti_am3_dpll_round_rate 32 plat 1 s) in
  clk_ti_am3_dpll_set_rate 32 am33xx_clock_h plat 1 s = (Returned (no_solution 32), s1) /\
  exists evs, log s1 = evs ++ log s /\ Forall (fun e => touches_register e = false) evs.
Proof.
  intros plat s s1.
  apply (set_rate_no_solution 32 am33xx_clock_h plat 1 s s1).
  - lia.
  - vm_compute. reflexivity.
Defined.

Ltac in_cases H :=
  cbn [In app] in H;
  repeat match type of H with
         | _ \/ _ => destruct H as [H | H]
         | False => destruct H
         end;
  try discriminate H.

Lemma untouched_not_in e evs :
  Forall (fun e => touches_register e = false) evs -> touches_register e = true -> ~ In e evs.
Proof.
  intros Hall He Hin. rewrite Forall_forall in Hall. specialize (Hall e Hin). congruence.
Qed.



(** The search asks the platform for the reference rate only. *)
Lemma round_rate_ext W plat plat2 rate0 s :
  (forall l, parent_rate plat2 l clk_ref = parent_rate plat l clk_ref) ->
  clk_ti_am3_dpll_round_rate W plat2 rate0 s = clk_ti_am3_dpll_round_rate W plat rate0 s.
Proof.
  intros Hext. rewrite !round_rate_run. cbv zeta. rewrite Hext. reflexivity.
Qed.

(** A call that returns, returns the value of its search. *)
Lemma set_rate_returns_search W h plat rate0 s v s' rr s1 :
  clk_ti_am3_dpll_round_rate W plat rate0 s = (Returned rr, s1) ->
  clk_ti_am3_dpll_set_rate W h plat rate0 s = (Returned v, s') ->
  v = rr.
Proof.
  intros Hrr Hrun. pose proof (set_rate_run W h plat rate0 _ _ _ Hrr) as Hset.
  destruct (IS_ERR_VALUE W rr).
  - rewrite Hset in Hrun. congruence.
  - destruct Hset as (v0 & bypassed & locked & _ & Hset). rewrite Hset in Hrun.
    destruct locked; [congruence | discriminate].
Qed.

(** C7.  Let the status mask be non-zero.  In a run whose bypass poll timed
    out, the error is logged and the sequence goes on: the select register is
    written, lock mode is requested and the lock is polled.  If that poll
    succeeds the call returns the rate of its search, which is also what any
    run that returns on a platform with the same reference clock returns, a
    run with a confirmed bypass among them. *)
Theorem set_rate_bypass_timeout W h plat rate0 p o s' :
  ST_DPLL_CLK_MASK h <> 0 ->
  run (clk_ti_am3_dpll_set_rate W h plat rate0) p = (o, s') ->
  In (Wait_on_value (ST_DPLL_CLK_MASK h) 0 (idlest_reg p) (LDELAY h) false) (log s') ->
  exists rr s1 v locked,
    run (clk_ti_am3_dpll_round_rate W plat rate0) p = (Returned rr, s1) /\
    log s' = programming_events h (priv s1) v false locked ++ log s1 /\
    In (Dev_err "failed bypassing dpll") (log s') /\
    In (Writel (set_m_n h v (last_rounded_mult (priv s1)) (last_rounded_div (priv s1)))
               (clksel_reg p)) (log s') /\
    In (Clrsetbits_le32 (clkmode_reg p) (CM_CLKMODE_DPLL_DPLL_EN_MASK h)
          (Z.shiftl (DPLL_EN_LOCK h) (CM_CLKMODE_DPLL_EN_SHIFT h))) (log s') /\
    In (Wait_on_value (ST_DPLL_CLK_MASK h) (ST_DPLL_CLK_MASK h) (idlest_reg p) (LDELAY h)
          locked) (log s') /\
    o = (if locked then Returned rr else Hung) /\
    (forall plat2 v2 s2,
       (forall l, parent_rate plat2 l clk_ref = parent_rate plat l clk_ref) ->
       run (clk_ti_am3_dpll_set_rate W h plat2 rate0) p = (Returned v2, s2) ->
       v2 = rr).
Proof.
  intros Hst Hrun Hin. unfold run in *.
  destruct (round_rate_returns W plat rate0 {| priv := p; log := [] |})
    as (rr & s1 & evs & Hrr & Hlog & Hno & (Hmode & Hidl & Hsel) & _).
  cbn [priv log] in Hlog, Hmode, Hidl, Hsel. rewrite app_nil_r in Hlog.
  pose proof (set_rate_run W h plat rate0 _ _ _ Hrr) as Hset.
  assert (Hpoll : ~ In (Wait_on_value (ST_DPLL_CLK_MASK h) 0 (idlest_reg p) (LDELAY h) false)
                       evs).
  { apply untouched_not_in; [exact Hno | reflexivity]. }
  destruct (IS_ERR_VALUE W rr) eqn:Herr.
  { rewrite Hset in Hrun. injection Hrun as <- <-. rewrite Hlog in Hin. destruct (Hpoll Hin). }
  destruct Hset as (v & bypassed & locked & _ & Hset).
  rewrite Hset in Hrun. injection Hrun as <- <-. cbn [log priv] in *.
  assert (Hb : bypassed = false).
  { rewrite Hlog in Hin. apply in_app_or in Hin. destruct Hin as [Hin | Hin];
      [|destruct (Hpoll Hin)].
    unfold programming_events in Hin.
    destruct locked, bypassed; try reflexivity; in_cases Hin;
      injection Hin as Hz; congruence. }
  subst bypassed. exists rr, s1, v, locked.
  split; [exact Hrr|]. split; [reflexivity|].
  unfold programming_events. rewrite Hmode, Hidl, Hsel.
  split; [apply in_or_app; left; destruct locked; cbn; tauto|].
  split; [apply in_or_app; left; destruct locked; cbn; tauto|].
  split; [apply in_or_app; left; destruct locked; cbn; tauto|].
  split; [apply in_or_app; left; destruct locked; cbn; tauto|].
  split; [reflexivity|].
  intros plat2 v2 s2 Hext Hrun2.
  apply (set_rate_returns_search W h plat2 rate0 {| priv := p; log := [] |} v2 s2 rr s1);
    [|exact Hrun2].
  rewrite (round_rate_ext W plat plat2) by exact Hext. exact Hrr.
Qed.

Lemma set_rate_bypass_timeout_witness :
  let plat := steady_platform 24000000 24000000 (fun _ => 0) false true in
  let p := am33xx_priv 1000000000 in
  let r := run (clk_ti_am3_dpll_set_rate 32 am33xx_clock_h plat 1000000000) p in
  exists rr s1 v locked,
    run (clk_ti_am3_dpll_round_rate 32 plat 1000000000) p = (Returned rr, s1) /\
    log (snd r) = programming_events am33xx_clock_h (priv s1) v false locked ++ log s1 /\
    In (Dev_err "failed bypassing dpll") (log (snd r)) /\
    In (Writel (set_m_n am33xx_clock_h v (last_rounded_mult (priv s1))
                  (last_rounded_div (priv s1))) (clksel_reg p)) (log (snd r)) /\
    In (Clrsetbits_le32 (clkmode_reg p) 7 (Z.shiftl 7 0)) (log (snd r)) /\
    In (Wait_on_value 1 1 (idlest_reg p) 1000000 locked) (log (snd r)) /\
    fst r = (if locked then Returned rr else Hung) /\
    (forall plat2 v2 s2,
       (forall l, parent_rate plat2 l clk_ref = parent_rate plat l clk_ref) ->
       run (clk_ti_am3_dpll_set_rate 32 am33xx_clock_h plat2 1000000000) p = (Returned v2, s2) ->
       v2 = rr).
Proof.
  intros plat p r.
  apply (set_rate_bypass_timeout 32 am33xx_clock_h plat 1000000000 p (fst r) (snd r)).
  - cbn. lia.
  - apply surjective_pairing.
  - vm_compute. do 4 right. left. reflexivity.
Defined.

(** C8.  Let the layout of the select register be the one the driver relies
    on.  Whatever a run writes, it writes to the select register, after it
    read that register; the multiplier field of the value written holds the
    recorded multiplier, its divider field the recorded divider minus one,
    and every bit outside the two masks is the bit that was read. *)
Theorem set_rate_select_write W h plat rate0 p o s' v' addr :
  clock_h_ok h ->
  12 <= W ->
  run (clk_ti_am3_dpll_set_rate W h plat rate0) p = (o, s') ->
  In (Writel v' addr) (log s') ->
  addr = clksel_reg p /\
  exists v later between earlier,
    log s' = later ++ Writel v' addr :: between ++ Readl (clksel_reg p) v :: earlier /\
    clksel_m h v' = last_rounded_mult (priv s') /\
    clksel_n h v' = last_rounded_div (priv s') - 1 /\
    (forall i, 0 <= i ->
       Z.testbit (CM_CLKSEL_DPLL_M_MASK h) i = false ->
       Z.testbit (CM_CLKSEL_DPLL_N_MASK h) i = false ->
       Z.testbit v' i = Z.testbit v i).
Proof.
  intros Hok HW Hrun Hin. unfold run in *.
  destruct (round_rate_returns W plat rate0 {| priv := p; log := [] |})
    as (rr & s1 & evs & Hrr & Hlog & Hno & (Hmode & Hidl & Hsel) & Hrange).
  cbn [priv log] in Hlog, Hmode, Hidl, Hsel. rewrite app_nil_r in Hlog.
  pose proof (set_rate_run W h plat rate0 _ _ _ Hrr) as Hset.
  assert (Hw : ~ In (Writel v' addr) evs).
  { apply untouched_not_in; [exact Hno | reflexivity]. }
  destruct (IS_ERR_VALUE W rr) eqn:Herr.
  { rewrite Hset in Hrun. injection Hrun as <- <-. rewrite Hlog in Hin. destruct (Hw Hin). }
  destruct (Hrange HW eq_refl) as [Hm Hd].
  destruct Hset as (v & bypassed & locked & Hv & Hset).
  rewrite Hset in Hrun. injection Hrun as <- <-. cbn [log priv] in *.
  assert (Hv' : v' = set_m_n h v (last_rounded_mult (priv s1)) (last_rounded_div (priv s1))
                /\ addr = clksel_reg p).
  { apply in_app_or in Hin. destruct Hin as [Hin | Hin]; [|rewrite Hlog in Hin; destruct (Hw Hin)].
    unfold programming_events in Hin.
    destruct locked, bypassed; in_cases Hin; injection Hin as <- <-; auto. }
  destruct Hv' as [-> ->]. split; [reflexivity|].
  exists v,
    ((if locked then [] else [Hang; Dev_err "failed locking dpll"]) ++
     [ Wait_on_value (ST_DPLL_CLK_MASK h) (ST_DPLL_CLK_MASK h) (idlest_reg p) (LDELAY h) locked;
       Clrsetbits_le32 (clkmode_reg p) (CM_CLKMODE_DPLL_DPLL_EN_MASK h)
         (Z.shiftl (DPLL_EN_LOCK h) (CM_CLKMODE_DPLL_EN_SHIFT h)) ]),
    ((if bypassed then [] else [Dev_err "failed bypassing dpll"]) ++
     [ Wait_on_value (ST_DPLL_CLK_MASK h) 0 (idlest_reg p) (LDELAY h) bypassed;
       Clrsetbits_le32 (clkmode_reg p) (CM_CLKMODE_DPLL_DPLL_EN_MASK h)
         (Z.shiftl (DPLL_EN_MN_BYPASS h) (CM_CLKMODE_DPLL_EN_SHIFT h)) ]),
    (log s1).
  split.
  { unfold programming_events. rewrite Hmode, Hidl, Hsel.
    destruct locked, bypassed; reflexivity. }
  split; [apply clksel_m_set_m_n; [exact Hok | simpl; lia]|].
  split; [apply clksel_n_set_m_n; [exact Hok | simpl; lia]|].
  intros i Hi HM HN. apply set_m_n_frame; assumption.
Qed.

Lemma set_rate_select_write_witness :
  let plat := steady_platform 24000000 24000000 (fun _ => 4294967295) true true in
  let p := am33xx_priv 1000000000 in
  let r := run (clk_ti_am3_dpll_set_rate 32 am33xx_clock_h plat 1000000000) p in
  clksel_reg p = clksel_reg p /\
  exists v later between earlier,
    log (snd r) = later ++ Writel 4294475138 (clksel_reg p) :: between
                  ++ Readl (clksel_reg p) v :: earlier /\
    clksel_m am33xx_clock_h 4294475138 = last_rounded_mult (priv (snd r)) /\
    clksel_n am33xx_clock_h 4294475138 = last_rounded_div (priv (snd r)) - 1 /\
    (forall i, 0 <= i ->
       Z.testbit 524032 i = false -> Z.testbit 127 i = false ->
       Z.testbit 4294475138 i = Z.testbit v i).
Proof.
  intros plat p r.
  apply (set_rate_select_write 32 am33xx_clock_h plat 1000000000 p (fst r) (snd r)).
  - exact am33xx_clock_h_ok.
  - lia.
  - apply surjective_pairing.
  - vm_compute. do 2 right. left. reflexivity.
Defined.

(** Two runs on the AM33xx layout with a 24 MHz reference, a 1 GHz ceiling
    and a 1 GHz target: one in which both polls succeed, one in which the
    lock poll times out. *)
Example set_rate_1GHz_run :
  let p := am33xx_priv 1000000000 in
  run (clk_ti_am3_dpll_set_rate 32 am33xx_clock_h
         (steady_platform 24000000 24000000 (fun _ => 0) true true) 1000000000) p
  = (Returned 1000000000,
     {| priv := set_last_rounded p 125 3;
        log := [ Wait_on_value 1 1 (idlest_reg p) 1000000 true;
                 Clrsetbits_le32 (clkmode_reg p) 7 7;
                 Writel 32002 (clksel_reg p);
                 Wait_on_value 1 0 (idlest_reg p) 1000000 true;
                 Clrsetbits_le32 (clkmode_reg p) 7 4;
                 Readl (clksel_reg p) 0;
                 Dev_dbg "rate=%ld, best_rate=%ld, mult=%d, div=%d"
                   [1000000000; 1000000000; 125; 3];
                 Clk_get_rate clk_ref 24000000 ] |}).
Proof. vm_compute. reflexivity. Qed.

Example set_rate_1GHz_lock_timeout :
  fst (run (clk_ti_am3_dpll_set_rate 32 am33xx_clock_h
              (steady_platform 24000000 24000000 (fun _ => 0) true false) 1000000000)
           (am33xx_priv 1000000000))
  = Hung.
Proof. vm_compute. reflexivity. Qed.

(** ** [clk_ti_am3_dpll_get_rate] *)

(** The divider field is the 7 bits of the select value from [N_SHIFT] on. *)
Lemma clksel_n_bits h v :
  clock_h_ok h ->
  clksel_n h v = Z.land (Z.shiftr v (CM_CLKSEL_DPLL_N_SHIFT h)) (Z.ones 7).
Proof.
  intros [[Hm0 Hm1] [Hn0 Hn1] Hmm Hnm Hdis].
  unfold clksel_n, u32, to_unsigned. rewrite Hnm.
  apply Z.bits_inj'. intros i Hi.
  rewrite Z.shiftr_spec, Z.testbit_mod_pow2, !Z.land_spec, Z.shiftr_spec by lia.
  rewrite Z.shiftl_spec, !Z.testbit_ones_nonneg by lia.
  replace (i + CM_CLKSEL_DPLL_N_SHIFT h - CM_CLKSEL_DPLL_N_SHIFT h) with i by lia.
  split_comparisons; cbn [andb]; rewrite ?andb_false_r; try reflexivity; lia.
Qed.

Lemma clksel_n_range h v : clock_h_ok h -> 0 <= clksel_n h v < 128.
Proof.
  intros Hok. rewrite clksel_n_bits by exact Hok.
  rewrite Z.land_ones by lia. apply (Z.mod_pos_bound _ (2 ^ 7)). lia.
Qed.

(** One call, written out. *)
Lemma get_rate_run W h plat s :
  let p := priv s in
  let mode := u32 (register_value plat (log s) (clkmode_reg p)) in
  let l1 := Readl (clkmode_reg p) mode :: log s in
  clk_ti_am3_dpll_get_rate W h plat s =
  if is_bypass h (dpll_en h mode) then
    let rate := ulong W (parent_rate plat l1 clk_bypass) in
    (Returned (ulong W (u64 rate)),
     {| priv := p;
        log := Dev_dbg "rate=%lld" [u64 rate] :: Clk_get_rate clk_bypass rate :: l1 |})
  else
    let sel := u32 (register_value plat l1 (clksel_reg p)) in
    let l2 := Readl (clksel_reg p) sel :: l1 in
    let ref_rate := ulong W (parent_rate plat l2 clk_ref) in
    let product := u64 (ulong W (ref_rate * clksel_m h sel)) in
    if divisor h sel =? 0 then
      (Div_by_zero, {| priv := p; log := Clk_get_rate clk_ref ref_rate :: l2 |})
    else
      (Returned (ulong W (product / divisor h sel)),
       {| priv := p;
          log := Dev_dbg "rate=%lld" [product / divisor h sel]
                 :: Clk_get_rate clk_ref ref_rate :: l2 |}).
Proof.
  cbv zeta. unfold clk_ti_am3_dpll_get_rate.
  cbv beta iota zeta delta [bind dev_get_priv readl clk_get_rate do_div dev_dbg pure].
  cbn [priv log record].
  destruct (is_bypass h _); [reflexivity|].
  cbv beta iota zeta delta [bind dev_get_priv readl clk_get_rate do_div dev_dbg pure].
  cbn [priv log record].
  destruct (divisor h _ =? 0); reflexivity.
Qed.

(** C10.  Let the layout of the select register be the one the driver
    relies on.  For every select value the second argument of [do_div] is
    the divider field plus one, between 1 and 128, and no call divides by
    zero. *)
Theorem get_rate_divisor_positive W h plat s :
  clock_h_ok h ->
  (forall v, divisor h v = clksel_n h v + 1 /\ 1 <= divisor h v <= 128) /\
  fst (clk_ti_am3_dpll_get_rate W h plat s) <> Div_by_zero.
Proof.
  intros Hok.
  assert (Hdiv : forall v, divisor h v = clksel_n h v + 1 /\ 1 <= divisor h v <= 128).
  { intros v. pose proof (clksel_n_range h v Hok) as Hn.
    unfold divisor, u32. rewrite to_unsigned_small by lia. lia. }
  split; [exact Hdiv|].
  rewrite get_rate_run. cbv zeta.
  destruct (is_bypass h _); [discriminate|].
  match goal with |- context [divisor h ?v] => destruct (Hdiv v) as [_ Hpos] end.
  destruct (Z.eqb_spec (divisor h
    (u32 (register_value plat
       (Readl (clkmode_reg (priv s))
          (u32 (register_value plat (log s) (clkmode_reg (priv s)))) :: log s)
       (clksel_reg (priv s))))) 0) as [Hz | Hnz]; [lia | discriminate].
Qed.

Lemma get_rate_divisor_positive_witness :
  (forall v, divisor am33xx_clock_h v = clksel_n am33xx_clock_h v + 1 /\
             1 <= divisor am33xx_clock_h v <= 128) /\
  fst (clk_ti_am3_dpll_get_rate 32 am33xx_clock_h
         (steady_platform 24000000 24000000 (fun _ => 4294967295) true true)
         {| priv := am33xx_priv 1000000000; log := [] |}) <> Div_by_zero.
Proof.
  apply (get_rate_divisor_positive 32 am33xx_clock_h).
  exact am33xx_clock_h_ok.
Defined.

(** X11.  In bypass the call returns the rate of the bypass clock, and the select
    register is not read: the events are the read of the mode register, the
    query of the bypass clock and the debug message. *)
Lemma get_rate_bypass W h plat s :
  0 <= W <= 64 ->
  let mode := u32 (register_value plat (log s) (clkmode_reg (priv s))) in
  let l1 := Readl (clkmode_reg (priv s)) mode :: log s in
  let rate := ulong W (parent_rate plat l1 clk_bypass) in
  is_bypass h (dpll_en h mode) = true ->
  clk_ti_am3_dpll_get_rate W h plat s =
  (Returned rate,
   {| priv := priv s;
      log := Dev_dbg "rate=%lld" [rate] :: Clk_get_rate clk_bypass rate :: l1 |}).
Proof.
  intros HW mode l1 rate Hb. rewrite get_rate_run. cbv zeta. fold mode. rewrite Hb.
  fold l1. fold rate.
  assert (Hr : 0 <= rate < 2 ^ W) by (apply to_unsigned_range; lia).
  assert (H64 : 2 ^ W <= 2 ^ 64) by (apply pow2_le_mono; lia).
  assert (Hu : u64 rate = rate) by (apply to_unsigned_small; lia).
  rewrite Hu. unfold ulong at 1. rewrite to_unsigned_small by exact Hr. reflexivity.
Qed.

(** X12.  When locked, the call returns floor(ref_rate * m / (n + 1)) if the
    product fits [unsigned long]. *)
Lemma get_rate_locked W h plat s :
  0 <= W <= 64 -> clock_h_ok h ->
  let mode := u32 (register_value plat (log s) (clkmode_reg (priv s))) in
  let l1 := Readl (clkmode_reg (priv s)) mode :: log s in
  let sel := u32 (register_value plat l1 (clksel_reg (priv s))) in
  let l2 := Readl (clksel_reg (priv s)) sel :: l1 in
  let ref_rate := ulong W (parent_rate plat l2 clk_ref) in
  is_bypass h (dpll_en h mode) = false ->
  ref_rate * clksel_m h sel < 2 ^ W ->
  fst (clk_ti_am3_dpll_get_rate W h plat s) =
  Returned (ref_rate * clksel_m h sel / (clksel_n h sel + 1)).
Proof.
  intros HW Hok mode l1 sel l2 ref_rate Hb Hfit.
  rewrite get_rate_run. cbv zeta. fold mode. rewrite Hb. fold l1. fold sel. fold l2.
  fold ref_rate.
  pose proof (clksel_n_range h sel Hok) as Hn.
  assert (Hd : divisor h sel = clksel_n h sel + 1).
  { unfold divisor, u32. apply to_unsigned_small. lia. }
  rewrite Hd. destruct (Z.eqb_spec (clksel_n h sel + 1) 0) as [Hz | _]; [lia|].
  cbn [fst]. f_equal.
  assert (Hr : 0 <= ref_rate < 2 ^ W) by (apply to_unsigned_range; lia).
  assert (Hm : 0 <= clksel_m h sel).
  { unfold clksel_m. apply Z.shiftr_nonneg. apply to_unsigned_range. lia. }
  assert (H64 : 2 ^ W <= 2 ^ 64) by (apply pow2_le_mono; lia).
  assert (Hp : 0 <= ref_rate * clksel_m h sel) by nia.
  assert (Hprod : ulong W (ref_rate * clksel_m h sel) = ref_rate * clksel_m h sel)
    by (apply to_unsigned_small; lia).
  rewrite Hprod.
  assert (Hwide : u64 (ref_rate * clksel_m h sel) = ref_rate * clksel_m h sel)
    by (apply to_unsigned_small; lia).
  rewrite Hwide. apply to_unsigned_small. split.
  - apply Z.div_pos; lia.
  - apply Z.le_lt_trans with (m := ref_rate * clksel_m h sel); [|lia].
    apply Z.div_le_upper_bound; [lia|]. nia.
Qed.

(** C3 at its failing inputs.  With a 32 bit [unsigned long], a 24 MHz
    reference and the select value of M = 1000, N = 23, the call returns
    105,215,146 and not floor(24,000,000 * 1000 / 24) = 1,000,000,000: the
    product is formed in [unsigned long] and wraps before it is widened.
    With a 64 bit [unsigned long] the same happens from a reference rate of
    [2^63] on. *)
Theorem get_rate_product_wraps :
  (fst (run (clk_ti_am3_dpll_get_rate 32 am33xx_clock_h
               (locked_platform 24000000 256023)) (am33xx_priv 0))
   = Returned 105215146 /\
   clksel_m am33xx_clock_h 256023 = 1000 /\
   clksel_n am33xx_clock_h 256023 = 23 /\
   24000000 * 1000 / (23 + 1) = 1000000000) /\
  (fst (run (clk_ti_am3_dpll_get_rate 64 am33xx_clock_h
               (locked_platform (2 ^ 63) 513)) (am33xx_priv 0))
   = Returned 0 /\
   clksel_m am33xx_clock_h 513 = 2 /\
   clksel_n am33xx_clock_h 513 = 1 /\
   2 ^ 63 * 2 / (1 + 1) = 2 ^ 63).
Proof. vm_compute. repeat split. Qed.

(** * Further properties *)

(** ** More on [clk_ti_am3_dpll_round_rate] *)

(** A run, read backwards: the value returned and the pair stored are those
    of the search on the clamped target with the rate the reference clock
    answered. *)
Lemma round_rate_inv W plat rate0 p v s' ref_rate :
  run (clk_ti_am3_dpll_round_rate W plat rate0) p = (Returned v, s') ->
  In (Clk_get_rate clk_ref ref_rate) (log s') ->
  let b := search W ref_rate (clamp_rate p rate0) in
  v = ret b /\ priv s' = set_last_rounded p (u16 (mult b)) (u8 (div b)).
Proof.
  intros Hrun Hin. unfold run in Hrun. rewrite round_rate_run in Hrun. cbv zeta in Hrun.
  cbn [priv log] in Hrun. unfold searched in Hrun. injection Hrun as Hret Hs'.
  assert (Hr : ref_rate = ulong W (parent_rate plat
            (if negb (max_rate p =? 0) && (rate0 >? max_rate p)
             then [too_high rate0 (max_rate p)] else []) clk_ref)).
  { subst s'. cbn [log] in Hin.
    destruct Hin as [Hin | [Hin | Hin]]; [discriminate | congruence |].
    destruct (negb (max_rate p =? 0) && (rate0 >? max_rate p));
      [destruct Hin as [Hin | []]; discriminate | destruct Hin]. }
  rewrite <- Hr in Hret, Hs'. cbv zeta. subst s'. cbn [priv]. split; [symmetry; exact Hret | reflexivity].
Qed.

(** X1.  If the target can be met exactly by a pair of the search space, the
    call returns the target itself. *)
Theorem round_rate_exact_target W plat rate0 p v s' ref_rate m d :
  32 <= W ->
  run (clk_ti_am3_dpll_round_rate W plat rate0) p = (Returned v, s') ->
  In (Clk_get_rate clk_ref ref_rate) (log s') ->
  0 < clamp_rate p rate0 ->
  0 < ref_rate ->
  clamp_rate p rate0 + 2 * ref_rate < 2 ^ 31 ->
  256 * clamp_rate p rate0 + 2 * ref_rate <= 2 ^ W ->
  2 <= m <= 2047 -> 1 <= d <= 128 ->
  ref_rate * m / d = clamp_rate p rate0 ->
  v = clamp_rate p rate0 /\
  ref_rate * last_rounded_mult (priv s') / last_rounded_div (priv s') = clamp_rate p rate0.
Proof.
  intros HW Hrun Hin Hrate Href Hint Hlong Hm Hd Hex.
  destruct (round_rate_inv W plat rate0 p v s' ref_rate Hrun Hin) as [Hv Hp].
  destruct (search_optimal W ref_rate _ HW Hrate Href Hint Hlong) as [Hwf Hopt].
  destruct (Hopt m d (conj Hm Hd)) as [Hle _].
  unfold exact_err, exact_rate in Hle. rewrite Hex in Hle.
  replace (clamp_rate p rate0 - clamp_rate p rate0) with 0 in Hle by lia. change (Z.abs 0) with 0 in Hle.
  destruct Hwf as [Hinit | ([Hm' Hd'] & Hret & Herr & Hlt)].
  - rewrite Hinit in Hle. rewrite (err_min_init W ref_rate _ HW Hrate Href Hint) in Hle. lia.
  - unfold exact_err in Herr. rewrite <- Hret in Herr.
    assert (Heq : ret (search W ref_rate (clamp_rate p rate0)) = clamp_rate p rate0) by lia.
    split; [rewrite Hv; exact Heq|].
    rewrite Hp. cbn [last_rounded_mult last_rounded_div set_last_rounded].
    unfold u16, u8. rewrite (to_unsigned_small 16), (to_unsigned_small 8) by lia.
    unfold exact_rate in Hret. rewrite <- Hret. exact Heq.
Qed.

(** X2.  A rate the call returns is positive and less than twice the target. *)
Theorem round_rate_within_target W plat rate0 p v s' ref_rate :
  32 <= W ->
  run (clk_ti_am3_dpll_round_rate W plat rate0) p = (Returned v, s') ->
  In (Clk_get_rate clk_ref ref_rate) (log s') ->
  0 < clamp_rate p rate0 ->
  0 < ref_rate ->
  clamp_rate p rate0 + 2 * ref_rate < 2 ^ 31 ->
  256 * clamp_rate p rate0 + 2 * ref_rate <= 2 ^ W ->
  v <> no_solution W ->
  0 < v < 2 * clamp_rate p rate0 /\ IS_ERR_VALUE W v = false.
Proof.
  intros HW Hrun Hin Hrate Href Hint Hlong Hns.
  destruct (round_rate_inv W plat rate0 p v s' ref_rate Hrun Hin) as [Hv Hp].
  destruct (search_optimal W ref_rate _ HW Hrate Href Hint Hlong) as [Hwf _].
  destruct Hwf as [Hinit | ([Hm' Hd'] & Hret & Herr & Hlt)].
  - exfalso. apply Hns. rewrite Hv, Hinit. reflexivity.
  - unfold exact_err in Herr. rewrite <- Hret, <- Hv in Herr.
    assert (Hb : 0 < v < 2 * clamp_rate p rate0) by lia.
    split; [exact Hb|].
    unfold IS_ERR_VALUE.
    assert (H32 : 2 ^ 32 <= 2 ^ W) by (apply pow2_le_mono; lia).
    assert (Hmod : ulong W (- MAX_ERRNO) = 2 ^ W - 4095).
    { unfold ulong, to_unsigned, MAX_ERRNO.
      symmetry. apply (Z.mod_unique (- 4095) (2 ^ W) (- 1) (2 ^ W - 4095)); lia. }
    rewrite Hmod. apply Z.leb_gt.
    change (2 ^ 32) with 4294967296 in H32. change (2 ^ 31) with 2147483648 in Hint. lia.
Qed.

(** A run whose search accepted no pair returns the failure value and
    stores the truncated [INT_MAX]. *)
Lemma round_rate_untouched W plat rate0 p :
  (forall ref_rate, search W ref_rate (clamp_rate p rate0) = best_init W (clamp_rate p rate0)) ->
  exists s',
    run (clk_ti_am3_dpll_round_rate W plat rate0) p = (Returned (no_solution W), s') /\
    last_rounded_mult (priv s') = 65535 /\ last_rounded_div (priv s') = 255.
Proof.
  intros Hs. unfold run. rewrite round_rate_run. cbv zeta. unfold searched.
  rewrite Hs. eexists. split; [reflexivity|]. split; reflexivity.
Qed.

Lemma scan_d_rows_unchanged W ref_rate rate ds b :
  Forall (fun d => scan_m W ref_rate rate d mults b = b) ds ->
  scan_d W ref_rate rate ds b = b.
Proof.
  induction 1 as [|d ds Hd _ IH]; [reflexivity|].
  rewrite scan_d_cons, Hd, IH. destruct (err_min b =? 0); reflexivity.
Qed.

Lemma mults_cons : mults = 2 :: upto 2045 3.
Proof. reflexivity. Qed.

Lemma scan_m_cons W ref_rate rate d m ms b :
  scan_m W ref_rate rate d (m :: ms) b =
  let r := candidate W ref_rate m d in
  let err := candidate_err W r rate in
  if err <? err_min b then
    let b' := {| err_min := err; ret := r; mult := m; div := d |} in
    if err =? 0 then b' else scan_m W ref_rate rate d ms b'
  else if r >? rate then b
  else scan_m W ref_rate rate d ms b.
Proof. reflexivity. Qed.

(** X5.  The target is a multiple of [2^32], zero among them: [err_min] starts at
    0 and the loops do not run. *)
Theorem round_rate_zero_target W plat rate0 p :
  clamp_rate p rate0 mod 2 ^ 32 = 0 ->
  exists s',
    run (clk_ti_am3_dpll_round_rate W plat rate0) p = (Returned (no_solution W), s') /\
    last_rounded_mult (priv s') = 65535 /\ last_rounded_div (priv s') = 255.
Proof.
  intros Hz. apply round_rate_untouched. intros ref_rate.
  unfold search. apply scan_d_done. cbn [err_min best_init].
  unfold int, to_signed. rewrite <- Zplus_mod_idemp_l, Hz. reflexivity.
Qed.

(** X4.  A reference rate of 0 gives no solution. *)
Theorem round_rate_zero_reference W plat rate0 p s' v :
  32 <= W ->
  0 <= clamp_rate p rate0 < 2 ^ 31 ->
  run (clk_ti_am3_dpll_round_rate W plat rate0) p = (Returned v, s') ->
  In (Clk_get_rate clk_ref 0) (log s') ->
  v = no_solution W /\
  last_rounded_mult (priv s') = 65535 /\ last_rounded_div (priv s') = 255.
Proof.
  intros HW Hrate Hrun Hin.
  destruct (round_rate_inv W plat rate0 p v s' 0 Hrun Hin) as [Hv Hp].
  cbv zeta in Hv, Hp.
  assert (Hs : search W 0 (clamp_rate p rate0) = best_init W (clamp_rate p rate0)).
  { unfold search. apply scan_d_rows_unchanged. apply Forall_forall. intros d _.
    apply scan_m_unchanged. apply Forall_forall. intros m _.
    assert (Hc : candidate W 0 m d = 0).
    { unfold candidate, ulong, to_unsigned. rewrite Z.mul_0_l, Zmod_0_l, Zdiv_0_l.
      reflexivity. }
    rewrite Hc. rewrite candidate_err_exact by (try exact HW; lia).
    cbn [err_min best_init]. rewrite (to_signed_small 32) by (simpl; lia). lia. }
  rewrite Hs in Hv, Hp. split; [exact Hv|]. rewrite Hp. split; reflexivity.
Qed.

(** X3.  A target so small that even the lowest rate of the search space,
    floor(2 * ref_rate / 128), is at least twice the target gives no
    solution: every row ends at its first multiplier. *)
Theorem round_rate_target_too_small W plat rate0 p v s' ref_rate :
  32 <= W ->
  run (clk_ti_am3_dpll_round_rate W plat rate0) p = (Returned v, s') ->
  In (Clk_get_rate clk_ref ref_rate) (log s') ->
  0 < clamp_rate p rate0 ->
  2 * ref_rate < 2 ^ 31 ->
  2 * clamp_rate p rate0 <= 2 * ref_rate / 128 ->
  v = no_solution W /\
  last_rounded_mult (priv s') = 65535 /\ last_rounded_div (priv s') = 255.
Proof.
  intros HW Hrun Hin Hrate Href Hsmall.
  destruct (round_rate_inv W plat rate0 p v s' ref_rate Hrun Hin) as [Hv Hp].
  cbv zeta in Hv, Hp. set (rate := clamp_rate p rate0) in *.
  assert (H31 : 2 ^ 31 <= 2 ^ W) by (apply pow2_le_mono; lia).
  assert (Hpos : 0 < ref_rate).
  { pose proof (Z.div_mod (2 * ref_rate) 128 ltac:(lia)).
    pose proof (Z.mod_pos_bound (2 * ref_rate) 128 ltac:(lia)). lia. }
  assert (Hs : search W ref_rate rate = best_init W rate).
  { unfold search. apply scan_d_rows_unchanged.
    eapply Forall_impl; [|exact divs_bounds]. cbn beta. intros d Hd.
    rewrite mults_cons, scan_m_cons. cbv zeta.
    rewrite candidate_exact by lia.
    assert (Hlow : 2 * ref_rate / 128 <= ref_rate * 2 / d).
    { replace (ref_rate * 2) with (2 * ref_rate) by lia.
      apply Z.div_le_compat_l; lia. }
    assert (Hhigh : ref_rate * 2 / d <= ref_rate * 2).
    { apply Z.div_le_upper_bound; [lia|]. nia. }
    rewrite candidate_err_exact by (try exact HW; lia).
    cbn [err_min best_init]. unfold int. rewrite (to_signed_small 32 rate) by (simpl; lia).
    destruct (Z.ltb_spec (Z.abs (ref_rate * 2 / d - rate)) rate); [lia|].
    destruct (Z.gtb_spec (ref_rate * 2 / d) rate); [reflexivity | lia]. }
  rewrite Hs in Hv, Hp. split; [exact Hv|]. rewrite Hp. split; reflexivity.
Qed.

Lemma clamp_rate_set_last_rounded p a b rate0 :
  clamp_rate (set_last_rounded p a b) rate0 = clamp_rate p rate0.
Proof. reflexivity. Qed.

(** X6.  Calling twice stores the same pair and returns the same value: the
    result depends on the ceiling, the target and the answer of the
    reference clock only, not on the pair stored before. *)
Theorem round_rate_idempotent W plat rate0 s :
  (forall l l', parent_rate plat l clk_ref = parent_rate plat l' clk_ref) ->
  let r1 := clk_ti_am3_dpll_round_rate W plat rate0 s in
  let r2 := clk_ti_am3_dpll_round_rate W plat rate0 (snd r1) in
  fst r2 = fst r1 /\ priv (snd r2) = priv (snd r1).
Proof.
  intros Hsteady. cbv zeta.
  destruct (clk_ti_am3_dpll_round_rate W plat rate0 s) as [o1 s1] eqn:E1.
  rewrite round_rate_run in E1. cbv zeta in E1. unfold searched in E1.
  injection E1 as <- <-. cbn [fst snd].
  rewrite round_rate_run. cbv zeta. unfold searched. cbn [priv log fst snd].
  rewrite clamp_rate_set_last_rounded.
  repeat match goal with
         | |- context [parent_rate plat ?l clk_ref] =>
             lazymatch l with
             | [] => fail
             | _ => rewrite (Hsteady l [])
             end
         end.
  split; reflexivity.
Qed.

(** X7.  The call touches no register and keeps the register addresses and the
    ceiling; it always returns. *)
Theorem round_rate_no_register W plat rate0 s :
  exists v s' evs,
    clk_ti_am3_dpll_round_rate W plat rate0 s = (Returned v, s') /\
    log s' = evs ++ log s /\
    Forall (fun e => touches_register e = false) evs /\
    clkmode_reg (priv s') = clkmode_reg (priv s) /\
    idlest_reg (priv s') = idlest_reg (priv s) /\
    clksel_reg (priv s') = clksel_reg (priv s) /\
    max_rate (priv s') = max_rate (priv s).
Proof.
  destruct (round_rate_returns W plat rate0 s)
    as (v & s' & evs & Heq & Hlog & Hno & (Hmode & Hidl & Hsel) & _).
  exists v, s', evs. repeat (split; [assumption|]).
  rewrite round_rate_run in Heq. cbv zeta in Heq. unfold searched in Heq.
  injection Heq as _ <-. reflexivity.
Qed.

(** ** More on [clk_ti_am3_dpll_set_rate] *)

Lemma filter_untouched evs :
  Forall (fun e => touches_register e = false) evs -> filter touches_register evs = [].
Proof.
  induction 1 as [|e evs He _ IH]; [reflexivity|]. cbn [filter]. rewrite He. exact IH.
Qed.

Lemma filter_programming_events h p v bypassed locked :
  filter touches_register (programming_events h p v bypassed locked)
  = register_sequence h p v bypassed locked.
Proof. destruct bypassed, locked; reflexivity. Qed.

(** X9.  The call leaves the private data as its search left it; when it
    returns, it returns the value of its search; it never divides. *)
Theorem set_rate_returns_round_rate W h plat rate0 s o s' :
  clk_ti_am3_dpll_set_rate W h plat rate0 s = (o, s') ->
  let r := clk_ti_am3_dpll_round_rate W plat rate0 s in
  priv s' = priv (snd r) /\
  (forall v, o = Returned v -> fst r = Returned v) /\
  o <> Div_by_zero.
Proof.
  intros Hrun r. subst r.
  destruct (round_rate_returns W plat rate0 s) as (rr & s1 & evs & Hrr & _).
  rewrite Hrr. cbn [fst snd].
  pose proof (set_rate_run W h plat rate0 s rr s1 Hrr) as Hset.
  destruct (IS_ERR_VALUE W rr).
  - rewrite Hset in Hrun. injection Hrun as <- <-.
    split; [reflexivity|]. split; [intros v Hv; exact Hv | discriminate].
  - destruct Hset as (v0 & bypassed & locked & _ & Hset). rewrite Hset in Hrun.
    injection Hrun as <- <-. cbn [priv]. split; [reflexivity|].
    destruct locked; (split; [intros v Hv; congruence | discriminate]).
Qed.

(** X10.  The register accesses of a call are none at all (the search failed and
    the call returns its error value), or the same six in the same order
    whatever the polls answer: read the select register, request bypass,
    poll, write the select register, request lock, poll.  Nothing is read
    again, written twice or retried. *)
Theorem set_rate_register_sequence W h plat rate0 p o s' :
  run (clk_ti_am3_dpll_set_rate W h plat rate0) p = (o, s') ->
  (filter touches_register (log s') = [] /\
   exists v, o = Returned v /\ IS_ERR_VALUE W v = true) \/
  (exists v bypassed locked,
     filter touches_register (log s') = register_sequence h (priv s') v bypassed locked /\
     clkmode_reg (priv s') = clkmode_reg p /\
     idlest_reg (priv s') = idlest_reg p /\
     clksel_reg (priv s') = clksel_reg p /\
     (locked = true -> exists rr, o = Returned rr /\ IS_ERR_VALUE W rr = false) /\
     (locked = false -> o = Hung)).
Proof.
  intros Hrun. unfold run in Hrun.
  destruct (round_rate_returns W plat rate0 {| priv := p; log := [] |})
    as (rr & s1 & evs & Hrr & Hlog & Hno & (Hmode & Hidl & Hsel) & _).
  cbn [priv log] in Hlog, Hmode, Hidl, Hsel. rewrite app_nil_r in Hlog.
  pose proof (set_rate_run W h plat rate0 _ rr s1 Hrr) as Hset.
  destruct (IS_ERR_VALUE W rr) eqn:Herr.
  - left. rewrite Hset in Hrun. injection Hrun as <- <-. rewrite Hlog.
    split; [apply filter_untouched; exact Hno|]. exists rr. split; [reflexivity | exact Herr].
  - right. destruct Hset as (v & bypassed & locked & _ & Hset). rewrite Hset in Hrun.
    injection Hrun as <- <-. cbn [priv log]. exists v, bypassed, locked.
    rewrite filter_app, filter_programming_events, Hlog, (filter_untouched evs Hno), app_nil_r.
    split; [reflexivity|]. repeat (split; [assumption|]).
    split; intros ->; [exists rr; split; [reflexivity | exact Herr] | reflexivity].
Qed.

(** ** More on [clk_ti_am3_dpll_get_rate] *)

(** X13.  The call only reads: its events are reads of registers, queries of the
    parent clocks and debug messages, at most two registers are read, the
    private data is unchanged and the call never hangs. *)
Theorem get_rate_reads_only W h plat s :
  exists evs,
    log (snd (clk_ti_am3_dpll_get_rate W h plat s)) = evs ++ log s /\
    Forall (fun e => reads_only e = true) evs /\
    (List.length (filter touches_register evs) <= 2)%nat /\
    priv (snd (clk_ti_am3_dpll_get_rate W h plat s)) = priv s /\
    fst (clk_ti_am3_dpll_get_rate W h plat s) <> Hung.
Proof.
  rewrite get_rate_run. cbv zeta.
  destruct (is_bypass h _).
  - eexists [_; _; _]. cbn [snd fst log priv app]. split; [reflexivity|].
    split; [repeat constructor|]. split; [cbn; lia|]. split; [reflexivity | discriminate].
  - destruct (divisor h _ =? 0).
    + eexists [_; _; _]. cbn [snd fst log priv app]. split; [reflexivity|].
      split; [repeat constructor|]. split; [cbn; lia|]. split; [reflexivity | discriminate].
    + eexists [_; _; _; _]. cbn [snd fst log priv app]. split; [reflexivity|].
      split; [repeat constructor|]. split; [cbn; lia|]. split; [reflexivity | discriminate].
Qed.

Lemma u32_set_m_n h v mult div : u32 (set_m_n h v mult div) = set_m_n h v mult div.
Proof.
  unfold set_m_n. cbv zeta. unfold u32, to_unsigned. apply Z.mod_mod. lia.
Qed.

(** X14.  After a call of [clk_ti_am3_dpll_set_rate] that returned a rate, a call
    of [clk_ti_am3_dpll_get_rate] returns the same rate, if the mode
    register does not read as bypassed, the select register reads as it was
    written and the reference clock answers as before.  This holds whether
    or not the product wrapped: both calls form it in [unsigned long]. *)
Theorem get_rate_after_set_rate W h plat rate0 p rr s1 v' ref_rate :
  clock_h_ok h ->
  12 <= W <= 64 ->
  run (clk_ti_am3_dpll_set_rate W h plat rate0) p = (Returned rr, s1) ->
  IS_ERR_VALUE W rr = false ->
  In (Writel v' (clksel_reg p)) (log s1) ->
  In (Clk_get_rate clk_ref ref_rate) (log s1) ->
  let mode := u32 (register_value plat (log s1) (clkmode_reg p)) in
  let l1 := Readl (clkmode_reg p) mode :: log s1 in
  let l2 := Readl (clksel_reg p) v' :: l1 in
  is_bypass h (dpll_en h mode) = false ->
  register_value plat l1 (clksel_reg p) = v' ->
  ulong W (parent_rate plat l2 clk_ref) = ref_rate ->
  fst (clk_ti_am3_dpll_get_rate W h plat s1) = Returned rr.
Proof.
  intros Hok HW Hrun Herr Hw Hc mode l1 l2 Hmode Hsel Hrefc. unfold run in Hrun.
  destruct (round_rate_returns W plat rate0 {| priv := p; log := [] |})
    as (rr0 & sr & evs & Hrr & Hlog & Hno & (Hrm & Hri & Hrs) & Hrange).
  cbn [priv log] in Hlog, Hrm, Hri, Hrs. rewrite app_nil_r in Hlog.
  pose proof (set_rate_run W h plat rate0 _ rr0 sr Hrr) as Hset.
  destruct (IS_ERR_VALUE W rr0) eqn:Herr0.
  { rewrite Hset in Hrun. injection Hrun as -> _. congruence. }
  destruct Hset as (v & bypassed & locked & Hv & Hset). rewrite Hset in Hrun.
  destruct locked; [|discriminate]. injection Hrun as -> Hs1.
  assert (Hs1p : priv s1 = priv sr) by (rewrite <- Hs1; reflexivity).
  assert (Hs1l : log s1 = programming_events h (priv sr) v bypassed true ++ log sr)
    by (rewrite <- Hs1; reflexivity).
  clear Hs1. rewrite Hs1l in Hw, Hc.
  destruct (Hrange ltac:(lia) eq_refl) as [Hm Hd].
  (* the value written *)
  assert (Hv' : v' = set_m_n h v (last_rounded_mult (priv sr)) (last_rounded_div (priv sr))).
  { unfold programming_events in Hw.
    destruct bypassed; cbn [app] in Hw; in_cases Hw;
      first [ injection Hw as <- _; reflexivity
            | exfalso; rewrite Hlog in Hw; revert Hw;
              apply untouched_not_in; [exact Hno | reflexivity] ]. }
  (* the reference rate of the search *)
  assert (Hc' : In (Clk_get_rate clk_ref ref_rate) (log sr)).
  { unfold programming_events in Hc. destruct bypassed; cbn [app] in Hc; in_cases Hc; exact Hc. }
  destruct (round_rate_inv W plat rate0 p rr sr ref_rate Hrr Hc') as [Hret Hpriv].
  cbv zeta in Hret, Hpriv.
  destruct (search_shape W ref_rate (clamp_rate p rate0)) as [Hinit | (_ & Hcand & _)].
  { exfalso. rewrite Hret, Hinit in Herr. cbn [ret best_init] in Herr.
    rewrite no_solution_is_err in Herr by lia. discriminate. }
  assert (Hmult : last_rounded_mult (priv sr) = mult (search W ref_rate (clamp_rate p rate0))).
  { rewrite Hpriv. cbn [last_rounded_mult set_last_rounded]. apply to_unsigned_small.
    rewrite Hpriv in Hm. cbn [last_rounded_mult set_last_rounded] in Hm.
    pose proof (to_unsigned_range 16 (mult (search W ref_rate (clamp_rate p rate0)))
                  ltac:(lia)) as Hr.
    destruct (search_shape W ref_rate (clamp_rate p rate0)) as [Hi | ([Hm2 _] & _)]; [|lia].
    exfalso. rewrite Hret, Hi in Herr. cbn [ret best_init] in Herr.
    rewrite no_solution_is_err in Herr by lia. discriminate. }
  assert (Hdiv : last_rounded_div (priv sr) = div (search W ref_rate (clamp_rate p rate0))).
  { rewrite Hpriv. cbn [last_rounded_div set_last_rounded]. apply to_unsigned_small.
    destruct (search_shape W ref_rate (clamp_rate p rate0)) as [Hi | ([_ Hd2] & _)]; [|lia].
    exfalso. rewrite Hret, Hi in Herr. cbn [ret best_init] in Herr.
    rewrite no_solution_is_err in Herr by lia. discriminate. }
  rewrite <- Hmult, <- Hdiv in Hcand. rewrite <- Hret in Hcand.
  (* the second call *)
  rewrite get_rate_run. cbv zeta. rewrite Hs1p, Hrm, Hrs.
  fold mode. rewrite Hmode. fold l1. rewrite Hsel.
  rewrite Hv', u32_set_m_n, <- Hv'. fold l2. rewrite Hrefc.
  assert (Hcm : clksel_m h v' = last_rounded_mult (priv sr)).
  { rewrite Hv'. apply clksel_m_set_m_n; [exact Hok | simpl; lia]. }
  assert (Hcn : clksel_n h v' = last_rounded_div (priv sr) - 1).
  { rewrite Hv'. apply clksel_n_set_m_n; [exact Hok | simpl; lia]. }
  assert (Hdv : divisor h v' = last_rounded_div (priv sr)).
  { unfold divisor. rewrite Hcn.
    replace (last_rounded_div (priv sr) - 1 + 1) with (last_rounded_div (priv sr)) by lia.
    unfold u32. apply to_unsigned_small. lia. }
  rewrite Hcm, Hdv.
  destruct (Z.eqb_spec (last_rounded_div (priv sr)) 0) as [Hz | _]; [lia|].
  cbn [fst]. f_equal. rewrite Hcand. unfold candidate.
  pose proof (to_unsigned_range W (ref_rate * last_rounded_mult (priv sr)) ltac:(lia)) as Hp.
  fold (ulong W (ref_rate * last_rounded_mult (priv sr))) in Hp.
  assert (H64 : 2 ^ W <= 2 ^ 64) by (apply pow2_le_mono; lia).
  unfold u64. rewrite (to_unsigned_small 64) by lia.
  unfold ulong at 1. apply to_unsigned_small. split.
  - apply Z.div_pos; lia.
  - apply Z.le_lt_trans with (m := ulong W (ref_rate * last_rounded_mult (priv sr))); [|lia].
    apply Z.div_le_upper_bound; [lia|]. nia.
Qed.

(** ** Binding *)

(** One call of [clk_ti_am3_dpll_of_to_plat], written out. *)
Lemma of_to_plat_run data rd NONE s :
  let p0 := set_clkmode_reg (set_max_rate (priv s) (data_max_rate data)) (rd 0) in
  let p1 := set_idlest_reg p0 (rd 1) in
  let p2 := set_clksel_reg p1 (rd 2) in
  clk_ti_am3_dpll_of_to_plat data rd NONE s =
  if rd 0 =? NONE then
    (Returned (- EINVAL),
     {| priv := p0; log := Dev_err "failed to get clkmode register" :: log s |})
  else if rd 1 =? NONE then
    (Returned (- EINVAL),
     {| priv := p1;
        log := Dev_err "failed to get idlest register"
               :: Dev_dbg "clkmode_reg=0x%08lx" [rd 0] :: log s |})
  else if rd 2 =? NONE then
    (Returned (- EINVAL),
     {| priv := p2;
        log := Dev_err "failed to get clksel register"
               :: Dev_dbg "idlest_reg=0x%08lx" [rd 1]
               :: Dev_dbg "clkmode_reg=0x%08lx" [rd 0] :: log s |})
  else
    (Returned 0,
     {| priv := p2;
        log := Dev_dbg "clksel_reg=0x%08lx" [rd 2]
               :: Dev_dbg "idlest_reg=0x%08lx" [rd 1]
               :: Dev_dbg "clkmode_reg=0x%08lx" [rd 0] :: log s |}).
Proof.
  cbv zeta. unfold clk_ti_am3_dpll_of_to_plat.
  cbv beta iota zeta delta [bind assign dev_get_priv dev_err dev_dbg pure record].
  cbn [priv log clkmode_reg idlest_reg clksel_reg set_clkmode_reg set_idlest_reg
       set_clksel_reg set_max_rate].
  destruct (rd 0 =? NONE); [reflexivity|].
  destruct (rd 1 =? NONE); [reflexivity|].
  destruct (rd 2 =? NONE); reflexivity.
Qed.

(** X15.  The call returns 0 exactly when the three addresses are resolved, and
    -EINVAL otherwise.  On success the private data holds the three addresses,
    in the order mode, status, select of the indices 0, 1, 2, and the ceiling
    of the driver data; the recorded pair is untouched and no error is
    logged. *)
Theorem of_to_plat_success data rd NONE s :
  let r := clk_ti_am3_dpll_of_to_plat data rd NONE s in
  (fst r = Returned 0 \/ fst r = Returned (- EINVAL)) /\
  (fst r = Returned 0 <-> rd 0 <> NONE /\ rd 1 <> NONE /\ rd 2 <> NONE) /\
  (fst r = Returned 0 ->
   priv (snd r) =
   {| clkmode_reg := rd 0; idlest_reg := rd 1; clksel_reg := rd 2;
      last_rounded_mult := last_rounded_mult (priv s);
      last_rounded_div := last_rounded_div (priv s);
      max_rate := data_max_rate data |} /\
   forall msg, ~ In (Dev_err msg) (firstn 3 (log (snd r)))).
Proof.
  cbv zeta. rewrite of_to_plat_run. cbv zeta.
  destruct (Z.eqb_spec (rd 0) NONE) as [H0 | H0];
    [|destruct (Z.eqb_spec (rd 1) NONE) as [H1 | H1];
      [|destruct (Z.eqb_spec (rd 2) NONE) as [H2 | H2]]];
    cbn [fst snd priv log]; (split; [auto|]); (split; [split; [discriminate || tauto | tauto]|]);
    try discriminate.
  intros _. split; [reflexivity|].
  intros msg Hin. cbn [firstn] in Hin. in_cases Hin.
Qed.

(** X16.  When an address is missing the call stops at the first one that is: it
    logs which, returns -EINVAL, has already stored the ceiling and the
    addresses before it, stores the missing one as it is, and leaves the
    later ones as they were. *)
Theorem of_to_plat_failure data rd NONE s :
  rd 0 = NONE \/ rd 1 = NONE \/ rd 2 = NONE ->
  let r := clk_ti_am3_dpll_of_to_plat data rd NONE s in
  fst r = Returned (- EINVAL) /\
  max_rate (priv (snd r)) = data_max_rate data /\
  clkmode_reg (priv (snd r)) = rd 0 /\
  (rd 0 = NONE ->
   hd_error (log (snd r)) = Some (Dev_err "failed to get clkmode register") /\
   idlest_reg (priv (snd r)) = idlest_reg (priv s) /\
   clksel_reg (priv (snd r)) = clksel_reg (priv s)) /\
  (rd 0 <> NONE -> rd 1 = NONE ->
   hd_error (log (snd r)) = Some (Dev_err "failed to get idlest register") /\
   idlest_reg (priv (snd r)) = NONE /\
   clksel_reg (priv (snd r)) = clksel_reg (priv s)) /\
  (rd 0 <> NONE -> rd 1 <> NONE ->
   hd_error (log (snd r)) = Some (Dev_err "failed to get clksel register") /\
   idlest_reg (priv (snd r)) = rd 1 /\
   clksel_reg (priv (snd r)) = NONE).
Proof.
  intros Hmiss. cbv zeta. rewrite of_to_plat_run. cbv zeta.
  destruct (Z.eqb_spec (rd 0) NONE) as [H0 | H0];
    [|destruct (Z.eqb_spec (rd 1) NONE) as [H1 | H1];
      [|destruct (Z.eqb_spec (rd 2) NONE) as [H2 | H2]]];
    cbn [fst snd priv log hd_error max_rate clkmode_reg idlest_reg clksel_reg
         set_clkmode_reg set_idlest_reg set_clksel_reg set_max_rate];
    try (exfalso; tauto);
    repeat split; try reflexivity; try tauto; try congruence.
Qed.

(** One call of [clk_ti_am3_dpll_probe] and of [clk_ti_am3_dpll_remove],
    written out. *)
Lemma probe_run fw l :
  let e0 := get_by_index fw l 0 clk_ref in
  let l0 := Clk_get_by_index 0 clk_ref e0 :: l in
  let e1 := get_by_index fw l0 1 clk_bypass in
  let l1 := Clk_get_by_index 1 clk_bypass e1 :: l0 in
  clk_ti_am3_dpll_probe fw l =
  if e0 =? 0 then
    if e1 =? 0 then (0, l1) else (e1, Bind_err "failed to get bypass clock" :: l1)
  else (e0, Bind_err "failed to get reference clock" :: l0).
Proof.
  cbv zeta. unfold clk_ti_am3_dpll_probe.
  destruct (get_by_index fw l 0 clk_ref =? 0); cbn [negb]; [|reflexivity].
  destruct (get_by_index fw _ 1 clk_bypass =? 0); reflexivity.
Qed.

Lemma remove_run fw l :
  let e0 := release_all fw l clk_bypass 1 in
  let l0 := Clk_release_all clk_bypass 1 e0 :: l in
  let e1 := release_all fw l0 clk_ref 1 in
  let l1 := Clk_release_all clk_ref 1 e1 :: l0 in
  clk_ti_am3_dpll_remove fw l =
  if e0 =? 0 then
    if e1 =? 0 then (0, l1) else (e1, Bind_err "failed to release reference clock" :: l1)
  else (e0, Bind_err "failed to release bypass clock" :: l0).
Proof.
  cbv zeta. unfold clk_ti_am3_dpll_remove.
  destruct (release_all fw l clk_bypass 1 =? 0); cbn [negb]; [|reflexivity].
  destruct (release_all fw _ clk_ref 1 =? 0); reflexivity.
Qed.

(** X18.  [clk_ti_am3_dpll_probe] gets the reference clock from index 0 and the
    bypass clock from index 1.  It returns 0 when both calls do; otherwise it
    returns the first error as it is, after logging it.  When the reference
    clock cannot be got the bypass clock is not asked for; when the bypass
    clock cannot be got the reference clock is not released. *)
Theorem probe_result fw l :
  let e0 := get_by_index fw l 0 clk_ref in
  let l0 := Clk_get_by_index 0 clk_ref e0 :: l in
  let e1 := get_by_index fw l0 1 clk_bypass in
  let l1 := Clk_get_by_index 1 clk_bypass e1 :: l0 in
  (e0 <> 0 ->
   clk_ti_am3_dpll_probe fw l = (e0, Bind_err "failed to get reference clock" :: l0)) /\
  (e0 = 0 -> e1 <> 0 ->
   clk_ti_am3_dpll_probe fw l = (e1, Bind_err "failed to get bypass clock" :: l1)) /\
  (e0 = 0 -> e1 = 0 -> clk_ti_am3_dpll_probe fw l = (0, l1)) /\
  (fst (clk_ti_am3_dpll_probe fw l) = 0 <-> e0 = 0 /\ e1 = 0).
Proof.
  cbv zeta. unfold clk_ti_am3_dpll_probe.
  destruct (Z.eqb_spec (get_by_index fw l 0 clk_ref) 0) as [H0 | H0]; cbn [negb].
  - destruct (Z.eqb_spec (get_by_index fw (Clk_get_by_index 0 clk_ref
                 (get_by_index fw l 0 clk_ref) :: l) 1 clk_bypass) 0) as [H1 | H1];
      cbn [negb fst]; repeat split; try tauto; try congruence.
  - cbn [fst]. repeat split; try tauto; try congruence.
Qed.

(** X19.  [clk_ti_am3_dpll_remove] releases the bypass clock, then the reference
    clock.  It returns 0 when both calls do; otherwise it returns the first
    error as it is, after logging it, and when the bypass clock cannot be
    released the reference clock is not released either. *)
Theorem remove_result fw l :
  let e0 := release_all fw l clk_bypass 1 in
  let l0 := Clk_release_all clk_bypass 1 e0 :: l in
  let e1 := release_all fw l0 clk_ref 1 in
  let l1 := Clk_release_all clk_ref 1 e1 :: l0 in
  (e0 <> 0 ->
   clk_ti_am3_dpll_remove fw l = (e0, Bind_err "failed to release bypass clock" :: l0)) /\
  (e0 = 0 -> e1 <> 0 ->
   clk_ti_am3_dpll_remove fw l = (e1, Bind_err "failed to release reference clock" :: l1)) /\
  (e0 = 0 -> e1 = 0 -> clk_ti_am3_dpll_remove fw l = (0, l1)) /\
  (fst (clk_ti_am3_dpll_remove fw l) = 0 <-> e0 = 0 /\ e1 = 0).
Proof.
  cbv zeta. unfold clk_ti_am3_dpll_remove.
  destruct (Z.eqb_spec (release_all fw l clk_bypass 1) 0) as [H0 | H0]; cbn [negb].
  - destruct (Z.eqb_spec (release_all fw (Clk_release_all clk_bypass 1
                 (release_all fw l clk_bypass 1) :: l) clk_ref 1) 0) as [H1 | H1];
      cbn [negb fst]; repeat split; try tauto; try congruence.
  - cbn [fst]. repeat split; try tauto; try congruence.
Qed.

(** X20.  A probe and a remove that both return 0 release each clock the probe
    got, once, in the reverse order. *)
Theorem probe_then_remove fw l l1 l2 :
  clk_ti_am3_dpll_probe fw l = (0, l1) ->
  clk_ti_am3_dpll_remove fw l1 = (0, l2) ->
  l2 = [ Clk_release_all clk_ref 1 0; Clk_release_all clk_bypass 1 0;
         Clk_get_by_index 1 clk_bypass 0; Clk_get_by_index 0 clk_ref 0 ] ++ l.
Proof.
  intros Hp Hr.
  rewrite probe_run in Hp. cbv zeta in Hp.
  destruct (Z.eqb_spec (get_by_index fw l 0 clk_ref) 0) as [E0 | E0];
    [|injection Hp as Hp _; contradiction].
  destruct (Z.eqb_spec (get_by_index fw
              (Clk_get_by_index 0 clk_ref (get_by_index fw l 0 clk_ref) :: l) 1 clk_bypass) 0)
    as [E1 | E1]; [|injection Hp as Hp _; contradiction].
  injection Hp as Hl1. rewrite E1, E0 in Hl1.
  rewrite remove_run in Hr. cbv zeta in Hr.
  destruct (Z.eqb_spec (release_all fw l1 clk_bypass 1) 0) as [F0 | F0];
    [|injection Hr as Hr _; contradiction].
  destruct (Z.eqb_spec (release_all fw
              (Clk_release_all clk_bypass 1 (release_all fw l1 clk_bypass 1) :: l1) clk_ref 1) 0)
    as [F1 | F1]; [|injection Hr as Hr _; contradiction].
  injection Hr as Hl2. rewrite F1, F0 in Hl2.
  rewrite <- Hl2, <- Hl1. reflexivity.
Qed.

(** X17.  Every entry of the match table has a ceiling, of at most
    2,000,000,000.  With the private data [clk_ti_am3_dpll_of_to_plat] leaves,
    whether it succeeded or not, a positive target is clamped to a positive
    target of at most the ceiling, which the [int] of the search holds without
    truncation. *)
Theorem of_match_ceiling name data rd NONE s rate0 :
  In (name, data) clk_ti_am3_dpll_of_match ->
  let p := priv (snd (clk_ti_am3_dpll_of_to_plat data rd NONE s)) in
  (max_rate p = 1000000000 \/ max_rate p = 2000000000) /\
  (0 < rate0 ->
   0 < clamp_rate p rate0 <= max_rate p /\
   clamp_rate p rate0 <= rate0 /\
   int (clamp_rate p rate0) = clamp_rate p rate0).
Proof.
  intros Hin p.
  assert (Hmax : max_rate p = data_max_rate data).
  { subst p. rewrite of_to_plat_run. cbv zeta.
    destruct (rd 0 =? NONE); [reflexivity|].
    destruct (rd 1 =? NONE); [reflexivity|].
    destruct (rd 2 =? NONE); reflexivity. }
  assert (Hc : data_max_rate data = 1000000000 \/ data_max_rate data = 2000000000).
  { cbn [In clk_ti_am3_dpll_of_match] in Hin.
    destruct Hin as [H | [H | [H | []]]]; injection H as _ <-; cbn; auto. }
  rewrite <- Hmax in Hc. split; [exact Hc|]. intros Hrate.
  assert (Hcl : 0 < clamp_rate p rate0 <= max_rate p /\ clamp_rate p rate0 <= rate0).
  { unfold clamp_rate.
    destruct (Z.eqb_spec (max_rate p) 0); [lia|]. cbn [negb andb].
    destruct (Z.gtb_spec rate0 (max_rate p)); lia. }
  destruct Hcl as [Hcl1 Hcl2]. split; [exact Hcl1|]. split; [exact Hcl2|].
  unfold int. apply to_signed_small; [lia|]. simpl. lia.
Qed.

(** X8.  With the ceiling of an entry of the match table, an [unsigned long] of
    at least 40 bits and a reference clock of at most 73,741,823 Hz, nothing
    wraps for any positive request: a rate the call returns is the rate of
    the recorded pair, no pair of the search space is nearer to the clamped
    target, and of the nearest pairs the recorded one has the smallest
    divider, then the smallest multiplier. *)
Theorem round_rate_nearest_of_match W plat name data p rate0 v s' ref_rate :
  In (name, data) clk_ti_am3_dpll_of_match ->
  max_rate p = data_max_rate data ->
  40 <= W ->
  0 < rate0 ->
  0 < ref_rate <= 73741823 ->
  run (clk_ti_am3_dpll_round_rate W plat rate0) p = (Returned v, s') ->
  In (Clk_get_rate clk_ref ref_rate) (log s') ->
  v <> no_solution W ->
  let rate := clamp_rate p rate0 in
  let mult := last_rounded_mult (priv s') in
  let div := last_rounded_div (priv s') in
  (2 <= mult <= 2047 /\ 1 <= div <= 128) /\
  v = ref_rate * mult / div /\
  (forall m d, 2 <= m <= 2047 -> 1 <= d <= 128 ->
     Z.abs (v - rate) <= Z.abs (ref_rate * m / d - rate)) /\
  (forall m d, 2 <= m <= 2047 -> 1 <= d <= 128 ->
     Z.abs (ref_rate * m / d - rate) = Z.abs (v - rate) ->
     div < d \/ (div = d /\ mult <= m)).
Proof.
  intros Hin Hmax HW Hrate0 Href Hrun Hlog Hv rate mult0 div0.
  assert (Hc : max_rate p = 1000000000 \/ max_rate p = 2000000000).
  { rewrite Hmax. cbn [In clk_ti_am3_dpll_of_match] in Hin.
    destruct Hin as [H | [H | [H | []]]]; injection H as _ <-; cbn; auto. }
  assert (Hcl : 0 < rate <= 2000000000).
  { subst rate. unfold clamp_rate.
    destruct (Z.eqb_spec (max_rate p) 0); [lia|]. cbn [negb andb].
    destruct (Z.gtb_spec rate0 (max_rate p)); lia. }
  assert (H40 : 2 ^ 40 <= 2 ^ W) by (apply pow2_le_mono; lia).
  change (2 ^ 40) with 1099511627776 in H40.
  assert (Hint : rate + 2 * ref_rate < 2 ^ 31) by (change (2 ^ 31) with 2147483648; lia).
  assert (Hlong : 256 * rate + 2 * ref_rate <= 2 ^ W) by lia.
  destruct (round_rate_inv W plat rate0 p v s' ref_rate Hrun Hlog) as [Hret Hp].
  cbv zeta in Hret, Hp. fold rate in Hret, Hp.
  destruct (search_optimal W ref_rate rate ltac:(lia) ltac:(lia) ltac:(lia) Hint Hlong)
    as [Hwf Hopt].
  destruct Hwf as [Hinit | Hch].
  { exfalso. apply Hv. rewrite Hret, Hinit. reflexivity. }
  pose proof Hch as ([Hm Hd] & Hrate_eq & Herr_eq & _).
  assert (Hmult : mult0 = mult (search W ref_rate rate)).
  { subst mult0. rewrite Hp. cbn [last_rounded_mult set_last_rounded].
    apply to_unsigned_small. lia. }
  assert (Hdiv : div0 = div (search W ref_rate rate)).
  { subst div0. rewrite Hp. cbn [last_rounded_div set_last_rounded].
    apply to_unsigned_small. lia. }
  rewrite Hmult, Hdiv, Hret. clear Hmult Hdiv.
  split; [split; assumption|]. split; [exact Hrate_eq|].
  split.
  - intros m d Hm' Hd'. destruct (Hopt m d (conj Hm' Hd')) as [Hle _].
    rewrite Herr_eq in Hle. unfold exact_err in Hle. rewrite <- Hrate_eq in Hle. exact Hle.
  - intros m d Hm' Hd' Htie. destruct (Hopt m d (conj Hm' Hd')) as [_ Hfirst].
    apply Hfirst; [|exact Hch].
    rewrite Herr_eq. unfold exact_err. rewrite <- Hrate_eq. exact Htie.
Qed.

(** ** Instances *)

Lemma round_rate_exact_target_witness :
  let plat := steady_platform 24000000 24000000 (fun _ => 0) true true in
  let p := am33xx_priv 1000000000 in
  let s' := snd (run (clk_ti_am3_dpll_round_rate 64 plat 1500000000) p) in
  1000000000 = clamp_rate p 1500000000 /\
  24000000 * last_rounded_mult (priv s') / last_rounded_div (priv s') = clamp_rate p 1500000000.
Proof.
  intros plat p s'.
  apply (round_rate_exact_target 64 plat 1500000000 p 1000000000 s' 24000000 125 3).
  - lia.
  - vm_compute. reflexivity.
  - vm_compute. right. left. reflexivity.
  - vm_compute. reflexivity.
  - lia.
  - vm_compute. reflexivity.
  - vm_compute. discriminate.
  - lia.
  - lia.
  - vm_compute. reflexivity.
Defined.

Lemma round_rate_within_target_witness :
  let plat := steady_platform 24000000 24000000 (fun _ => 0) true true in
  let p := am33xx_priv 1000000000 in
  0 < 1000000000 < 2 * clamp_rate p 1000000000 /\ IS_ERR_VALUE 64 1000000000 = false.
Proof.
  intros plat p.
  apply (round_rate_within_target 64 plat 1000000000 p 1000000000
           (snd (run (clk_ti_am3_dpll_round_rate 64 plat 1000000000) p)) 24000000).
  - lia.
  - vm_compute. reflexivity.
  - vm_compute. right. left. reflexivity.
  - vm_compute. reflexivity.
  - lia.
  - vm_compute. reflexivity.
  - vm_compute. discriminate.
  - vm_compute. discriminate.
Defined.

Lemma round_rate_target_too_small_witness :
  let plat := steady_platform 24000000 24000000 (fun _ => 0) true true in
  let p := am33xx_priv 1000000000 in
  let s' := snd (run (clk_ti_am3_dpll_round_rate 32 plat 187500) p) in
  no_solution 32 = no_solution 32 /\
  last_rounded_mult (priv s') = 65535 /\ last_rounded_div (priv s') = 255.
Proof.
  intros plat p s'.
  apply (round_rate_target_too_small 32 plat 187500 p (no_solution 32) s' 24000000).
  - lia.
  - vm_compute. reflexivity.
  - vm_compute. right. left. reflexivity.
  - vm_compute. reflexivity.
  - vm_compute. reflexivity.
  - vm_compute. discriminate.
Defined.

Lemma round_rate_zero_reference_witness :
  let plat := steady_platform 0 24000000 (fun _ => 0) true true in
  let p := am33xx_priv 1000000000 in
  let r := run (clk_ti_am3_dpll_round_rate 32 plat 1000000000) p in
  ret (search 32 0 1000000000) = no_solution 32 /\
  last_rounded_mult (priv (snd r)) = 65535 /\ last_rounded_div (priv (snd r)) = 255.
Proof.
  intros plat p r.
  assert (Hrun : r = searched 32 0 1000000000 p []).
  { unfold r, run. rewrite round_rate_run. reflexivity. }
  apply (round_rate_zero_reference 32 plat 1000000000 p (snd r)).
  - lia.
  - vm_compute. split; [discriminate | reflexivity].
  - fold r. rewrite Hrun. reflexivity.
  - rewrite Hrun. right. left. reflexivity.
Defined.

Lemma round_rate_zero_target_witness :
  exists s',
    run (clk_ti_am3_dpll_round_rate 64
           (steady_platform 24000000 24000000 (fun _ => 0) true true) 4294967296)
        (am33xx_priv 0) = (Returned (no_solution 64), s') /\
    last_rounded_mult (priv s') = 65535 /\ last_rounded_div (priv s') = 255.
Proof.
  apply (round_rate_zero_target 64). vm_compute. reflexivity.
Defined.

Lemma round_rate_idempotent_witness :
  let plat := steady_platform 24000000 24000000 (fun _ => 0) true true in
  let s := {| priv := am33xx_priv 1000000000; log := [] |} in
  let r1 := clk_ti_am3_dpll_round_rate 32 plat 910000000 s in
  let r2 := clk_ti_am3_dpll_round_rate 32 plat 910000000 (snd r1) in
  fst r2 = fst r1 /\ priv (snd r2) = priv (snd r1).
Proof.
  intros plat s.
  apply (round_rate_idempotent 32 plat 910000000 s).
  intros l l'. reflexivity.
Defined.

Lemma round_rate_nearest_of_match_witness :
  let plat := steady_platform 24000000 24000000 (fun _ => 0) true true in
  let p := am33xx_priv 1000000000 in
  let s' := snd (run (clk_ti_am3_dpll_round_rate 64 plat 1500000000) p) in
  let rate := clamp_rate p 1500000000 in
  let mult := last_rounded_mult (priv s') in
  let div := last_rounded_div (priv s') in
  (2 <= mult <= 2047 /\ 1 <= div <= 128) /\
  1000000000 = 24000000 * mult / div /\
  (forall m d, 2 <= m <= 2047 -> 1 <= d <= 128 ->
     Z.abs (1000000000 - rate) <= Z.abs (24000000 * m / d - rate)) /\
  (forall m d, 2 <= m <= 2047 -> 1 <= d <= 128 ->
     Z.abs (24000000 * m / d - rate) = Z.abs (1000000000 - rate) ->
     div < d \/ (div = d /\ mult <= m)).
Proof.
  intros plat p s'.
  apply (round_rate_nearest_of_match 64 plat "ti,am3-dpll-core-clock" dpll_core_data
           p 1500000000 1000000000 s' 24000000).
  - left. reflexivity.
  - reflexivity.
  - lia.
  - lia.
  - lia.
  - vm_compute. reflexivity.
  - vm_compute. right. left. reflexivity.
  - vm_compute. discriminate.
Defined.

Lemma set_rate_returns_round_rate_witness :
  let plat := steady_platform 24000000 24000000 (fun _ => 0) false true in
  let s := {| priv := am33xx_priv 1000000000; log := [] |} in
  let r := clk_ti_am3_dpll_round_rate 32 plat 1000000000 s in
  let q := clk_ti_am3_dpll_set_rate 32 am33xx_clock_h plat 1000000000 s in
  priv (snd q) = priv (snd r) /\
  (forall v, fst q = Returned v -> fst r = Returned v) /\
  fst q <> Div_by_zero.
Proof.
  intros plat s r q.
  apply (set_rate_returns_round_rate 32 am33xx_clock_h plat 1000000000 s (fst q) (snd q)).
  apply surjective_pairing.
Defined.

Lemma set_rate_register_sequence_witness :
  let plat := steady_platform 24000000 24000000 (fun _ => 0) false true in
  let p := am33xx_priv 1000000000 in
  let q := run (clk_ti_am3_dpll_set_rate 32 am33xx_clock_h plat 1000000000) p in
  (filter touches_register (log (snd q)) = [] /\
   exists v, fst q = Returned v /\ IS_ERR_VALUE 32 v = true) \/
  (exists v bypassed locked,
     filter touches_register (log (snd q))
     = register_sequence am33xx_clock_h (priv (snd q)) v bypassed locked /\
     clkmode_reg (priv (snd q)) = clkmode_reg p /\
     idlest_reg (priv (snd q)) = idlest_reg p /\
     clksel_reg (priv (snd q)) = clksel_reg p /\
     (locked = true -> exists rr, fst q = Returned rr /\ IS_ERR_VALUE 32 rr = false) /\
     (locked = false -> fst q = Hung)).
Proof.
  intros plat p q.
  apply (set_rate_register_sequence 32 am33xx_clock_h plat 1000000000 p (fst q) (snd q)).
  apply surjective_pairing.
Defined.

Lemma get_rate_bypass_witness :
  let plat := steady_platform 24000000 26000000 (fun _ => 5) true true in
  let s := {| priv := am33xx_priv 1000000000; log := [] |} in
  clk_ti_am3_dpll_get_rate 32 am33xx_clock_h plat s =
  (Returned 26000000,
   {| priv := priv s;
      log := [ Dev_dbg "rate=%lld" [26000000]; Clk_get_rate clk_bypass 26000000;
               Readl (clkmode_reg (priv s)) 5 ] |}).
Proof.
  intros plat s.
  apply (get_rate_bypass 32 am33xx_clock_h plat s).
  - lia.
  - vm_compute. reflexivity.
Defined.

Lemma get_rate_locked_witness :
  fst (clk_ti_am3_dpll_get_rate 32 am33xx_clock_h (locked_platform 1000000 256023)
         {| priv := am33xx_priv 0; log := [] |})
  = Returned (1000000 * 1000 / (23 + 1)).
Proof.
  apply (get_rate_locked 32 am33xx_clock_h (locked_platform 1000000 256023)
           {| priv := am33xx_priv 0; log := [] |}).
  - lia.
  - exact am33xx_clock_h_ok.
  - vm_compute. reflexivity.
  - vm_compute. reflexivity.
Defined.

Lemma get_rate_after_set_rate_witness :
  let plat := locked_platform 24000000 32002 in
  let p := am33xx_priv 1000000000 in
  let s1 := snd (run (clk_ti_am3_dpll_set_rate 32 am33xx_clock_h plat 1000000000) p) in
  fst (clk_ti_am3_dpll_get_rate 32 am33xx_clock_h plat s1) = Returned 1000000000.
Proof.
  intros plat p s1.
  apply (get_rate_after_set_rate 32 am33xx_clock_h plat 1000000000 p 1000000000 s1
           32002 24000000).
  - exact am33xx_clock_h_ok.
  - lia.
  - vm_compute. reflexivity.
  - vm_compute. reflexivity.
  - vm_compute. do 2 right. left. reflexivity.
  - vm_compute. do 7 right. left. reflexivity.
  - vm_compute. reflexivity.
  - vm_compute. reflexivity.
  - vm_compute. reflexivity.
Defined.

Lemma of_to_plat_success_witness :
  let rd := fun i => 1155598372 + 4 * i in
  let r := clk_ti_am3_dpll_of_to_plat dpll_core_data rd 4294967295
             {| priv := am33xx_priv 0; log := [] |} in
  fst r = Returned 0 /\
  priv (snd r) =
  {| clkmode_reg := 1155598372; idlest_reg := 1155598376; clksel_reg := 1155598380;
     last_rounded_mult := 0; last_rounded_div := 0; max_rate := 1000000000 |}.
Proof.
  intros rd r.
  destruct (of_to_plat_success dpll_core_data rd 4294967295
              {| priv := am33xx_priv 0; log := [] |}) as (_ & Hiff & Hpriv).
  assert (H0 : fst r = Returned 0).
  { apply Hiff. vm_compute. repeat split; discriminate. }
  split; [exact H0|]. exact (proj1 (Hpriv H0)).
Defined.

Lemma of_to_plat_failure_witness :
  let rd := fun i => if i =? 1 then 4294967295 else 1155598372 + 4 * i in
  let s := {| priv := am33xx_priv 0; log := [] |} in
  let r := clk_ti_am3_dpll_of_to_plat dpll_core_data rd 4294967295 s in
  fst r = Returned (- EINVAL) /\
  hd_error (log (snd r)) = Some (Dev_err "failed to get idlest register") /\
  max_rate (priv (snd r)) = 1000000000 /\
  clksel_reg (priv (snd r)) = clksel_reg (priv s).
Proof.
  intros rd s r.
  destruct (of_to_plat_failure dpll_core_data rd 4294967295 s)
    as (Hret & Hmax & _ & _ & Hidl & _).
  - right. left. reflexivity.
  - destruct Hidl as (Hlog & _ & Hsel); [vm_compute; discriminate | reflexivity |].
    split; [exact Hret|]. split; [exact Hlog|]. split; [exact Hmax | exact Hsel].
Defined.

Lemma of_match_ceiling_witness :
  let p := priv (snd (clk_ti_am3_dpll_of_to_plat dpll_no_gate_j_type_data
                        (fun i => 1155598372 + 4 * i) 4294967295
                        {| priv := am33xx_priv 0; log := [] |})) in
  (max_rate p = 1000000000 \/ max_rate p = 2000000000) /\
  (0 < 3000000000 ->
   0 < clamp_rate p 3000000000 <= max_rate p /\
   clamp_rate p 3000000000 <= 3000000000 /\
   int (clamp_rate p 3000000000) = clamp_rate p 3000000000).
Proof.
  apply (of_match_ceiling "ti,am3-dpll-no-gate-j-type-clock" dpll_no_gate_j_type_data).
  right. right. left. reflexivity.
Defined.

Lemma probe_result_witness :
  clk_ti_am3_dpll_probe (steady_framework 0 (- 2) 0 0) []
  = (- 2, [ Bind_err "failed to get bypass clock";
            Clk_get_by_index 1 clk_bypass (- 2); Clk_get_by_index 0 clk_ref 0 ]).
Proof.
  apply (proj1 (proj2 (probe_result (steady_framework 0 (- 2) 0 0) []))).
  - reflexivity.
  - vm_compute. discriminate.
Defined.

Lemma remove_result_witness :
  clk_ti_am3_dpll_remove (steady_framework 0 0 0 (- 2)) []
  = (- 2, [ Bind_err "failed to release bypass clock"; Clk_release_all clk_bypass 1 (- 2) ]).
Proof.
  apply (proj1 (remove_result (steady_framework 0 0 0 (- 2)) [])).
  vm_compute. discriminate.
Defined.

Lemma probe_then_remove_witness :
  snd (clk_ti_am3_dpll_remove (steady_framework 0 0 0 0)
         (snd (clk_ti_am3_dpll_probe (steady_framework 0 0 0 0) [])))
  = [ Clk_release_all clk_ref 1 0; Clk_release_all clk_bypass 1 0;
      Clk_get_by_index 1 clk_bypass 0; Clk_get_by_index 0 clk_ref 0 ] ++ [].
Proof.
  apply (probe_then_remove (steady_framework 0 0 0 0) []
           (snd (clk_ti_am3_dpll_probe (steady_framework 0 0 0 0) []))).
  - reflexivity.
  - reflexivity.
Defined.
